(** * Synthetic EHR generator: a shallow embedding of [src/data/synthetic.py]

  The module under study has one function, [generate_synthetic_ehr].  It
  creates a NumPy [Generator] from the seed, draws six arrays from it in a
  fixed order and assembles a pandas [DataFrame] of seven columns.

  Modelling choices.
  - Python [int] is [Z].  Python [str] is [string].
  - A binary64 value is modelled by the number it denotes: [NaN], a signed
    infinity, or a rational ([Fin q]).  Arithmetic on finite values is
    exact (rounding is not modelled); the properties below depend on
    comparisons only.
  - NumPy's bit generator is a parameter of the development (the record
    [BitGenerator]): its state type, its seeding function, its 64-bit
    output function and its standard normal sampler, which returns a
    finite value.  Nothing else is assumed about them.
  - The library routines the function calls ([default_rng],
    [Generator.normal], [Generator.choice], [DataFrame]) are transcribed
    from the libraries, with the checks that make them raise.
  - A [Generator] is a mutable heap object: the store is a list of bit
    generator states, a reference is an index into it, and every draw
    updates the store in place.
  - A library call that raises is modelled by the [Raise] outcome of a
    state-and-exception monad.
  - Memory is unbounded ([MemoryError] is not modelled). *)

From Stdlib Require Import ZArith QArith Qabs Qround Lqa.
From Stdlib Require Import Ascii String DecimalString DecimalZ DecimalPos
  DecimalFacts.
From stdpp Require Import base list strings.

Local Open Scope Z_scope.

(** ** binary64 values *)

Inductive float64 : Type :=
| NaN
| Inf (neg : bool)
| Fin (q : Q).

Module F64.

Definition of_Z (z : Z) : float64 := Fin (inject_Z z).

Definition isnan (x : float64) : bool :=
  match x with NaN => true | _ => false end.

Definition neg (x : float64) : float64 :=
  match x with
  | NaN => NaN
  | Inf s => Inf (negb s)
  | Fin q => Fin (- q)
  end.

Definition add (x y : float64) : float64 :=
  match x, y with
  | NaN, _ | _, NaN => NaN
  | Inf s, Inf t => if Bool.eqb s t then Inf s else NaN
  | Inf s, Fin _ | Fin _, Inf s => Inf s
  | Fin p, Fin q => Fin (p + q)
  end.

Definition sub (x y : float64) : float64 := add x (neg y).

Definition mul (x y : float64) : float64 :=
  match x, y with
  | NaN, _ | _, NaN => NaN
  | Inf s, Inf t => Inf (xorb s t)
  | Inf s, Fin q | Fin q, Inf s =>
      match Qcompare q 0 with
      | Eq => NaN
      | Lt => Inf (negb s)
      | Gt => Inf s
      end
  | Fin p, Fin q => Fin (p * q)
  end.

(** Division; the sign of a zero is not represented, so a finite non-zero
    value divided by zero takes the sign of the dividend. *)
Definition div (x y : float64) : float64 :=
  match x, y with
  | NaN, _ | _, NaN => NaN
  | Inf _, Inf _ => NaN
  | Inf s, Fin q => Inf (xorb s (Qle_bool q 0 && negb (Qeq_bool q 0)))
  | Fin _, Inf _ => Fin 0
  | Fin p, Fin q =>
      if Qeq_bool q 0
      then match Qcompare p 0 with
           | Eq => NaN
           | Lt => Inf true
           | Gt => Inf false
           end
      else Fin (p / q)
  end.

Definition abs (x : float64) : float64 :=
  match x with
  | NaN => NaN
  | Inf _ => Inf false
  | Fin q => Fin (Qabs q)
  end.

(** IEEE comparison: every comparison with a NaN is false. *)
Definition ltb (x y : float64) : bool :=
  match x, y with
  | NaN, _ | _, NaN => false
  | Inf s, Inf t => s && negb t
  | Inf s, Fin _ => s
  | Fin _, Inf t => negb t
  | Fin p, Fin q => negb (Qle_bool q p)
  end.

Definition leb (x y : float64) : bool :=
  match x, y with
  | NaN, _ | _, NaN => false
  | Inf s, Inf t => s || negb t
  | Inf s, Fin _ => s
  | Fin _, Inf t => negb t
  | Fin p, Fin q => Qle_bool p q
  end.

(** [np.maximum] and [np.minimum] propagate NaN. *)
Definition maximum (x y : float64) : float64 :=
  if isnan x then x else if isnan y then y else if leb y x then x else y.

Definition minimum (x y : float64) : float64 :=
  if isnan x then x else if isnan y then y else if leb x y then x else y.

End F64.

(** [ndarray.clip(a_min, a_max)] on one element:
  [minimum(maximum(x, a_min), a_max)]. *)
Definition clip (a_min a_max : float64) (x : float64) : float64 :=
  F64.minimum (F64.maximum x a_min) a_max.

Definition INT64_MIN : Z := - 2 ^ 63.

(** [ndarray.astype(int)] on one element: the C conversion of a double to
  [int64], which truncates toward zero.  A NaN, an infinity or a value
  whose truncation does not fit gives the "integer indefinite" value
  [INT64_MIN] of the x86-64 conversion instruction. *)
Definition astype_int (x : float64) : Z :=
  match x with
  | NaN | Inf _ => INT64_MIN
  | Fin q =>
      let t := Z.quot (Qnum q) (Z.pos (Qden q)) in
      if (INT64_MIN <=? t) && (t <? 2 ^ 63) then t else INT64_MIN
  end.

(** ** Python strings: [str(i)], [str.zfill], the f-string *)

(** [str(i)] for a Python [int]. *)
Definition str (i : Z) : string := NilZero.string_of_int (Z.to_int i).

Fixpoint zeros (k : nat) : string :=
  match k with
  | O => EmptyString
  | S k' => String "0"%char (zeros k')
  end.

Definition is_sign (c : ascii) : bool :=
  Ascii.eqb c "+"%char || Ascii.eqb c "-"%char.

(** [s.zfill(width)]: pad with ASCII zeros on the left up to [width]; a
  leading sign stays in front of the padding; a string that is already
  long enough is returned as it is. *)
Definition zfill (width : nat) (s : string) : string :=
  let fill := (width - String.length s)%nat in
  match fill, s with
  | O, _ => s
  | _, String c rest =>
      if is_sign c then String c (zeros fill +:+ rest)
      else zeros fill +:+ s
  | _, EmptyString => zeros fill
  end.

(** [f"P{str(i).zfill(6)}"] *)
Definition patient_id_of (i : Z) : string := "P" +:+ zfill 6 (str i).

(** [range(n)]: the integers [0 .. n-1]; empty when [n <= 0]. *)
Definition range (n : Z) : list Z := Z.of_nat <$> seq 0 (Z.to_nat n).

(** ** Exceptions, outcomes and the interpreter monad *)

(** [ReferenceError] stands for the use of a reference that is not in the
    store; no Python program can do that. *)
Inductive exn : Type :=
| ValueError (msg : string)
| IndexError (msg : string)
| ReferenceError.

Inductive outcome (A : Type) : Type :=
| Ok (a : A)
| Raise (e : exn).
Arguments Ok {A} a.
Arguments Raise {A} e.

Definition is_value_error {A} (r : outcome A) : bool :=
  match r with Raise (ValueError _) => true | _ => false end.

Section Interp.

(** The store of the running process: the live generator objects. *)
Variable bitgen : Type.

Definition store : Type := list bitgen.
Definition ref : Type := nat.

Definition M (A : Type) : Type := store -> outcome A * store.

Definition ret {A} (a : A) : M A := fun st => (Ok a, st).

Definition raise {A} (e : exn) : M A := fun st => (Raise e, st).

Definition bind {A B} (m : M A) (k : A -> M B) : M B :=
  fun st =>
    match m st with
    | (Ok a, st') => k a st'
    | (Raise e, st') => (Raise e, st')
    end.

(** Allocation of a new object: it is appended to the store. *)
Definition alloc (g : bitgen) : M ref :=
  fun st => (Ok (length st), st ++ [g]).

(** A method of the generator object [r]: read the state of its bit
    generator, run the C routine [f] on it, write the new state back. *)
Definition on_bitgen {A} (r : ref) (f : bitgen -> outcome A * bitgen) : M A :=
  fun st =>
    match st !! r with
    | Some g => let (o, g') := f g in (o, <[r := g']> st)
    | None => (Raise ReferenceError, st)
    end.

End Interp.

Arguments ret {bitgen A} a.
Arguments raise {bitgen A} e.
Arguments bind {bitgen A B} m k.
Arguments alloc {bitgen} g.
Arguments on_bitgen {bitgen A} r f.

Declare Scope py_scope.
Delimit Scope py_scope with py.
Notation "x <- c1 ;; c2" := (bind c1 (fun x => c2))
  (at level 100, c1 at next level, right associativity) : py_scope.
Local Open Scope py_scope.

(** ** pandas: the part of [DataFrame] the generator uses *)

Inductive cell : Type :=
| CStr (s : string)
| CInt (z : Z).

(** A frame is its [RangeIndex] (a length) and its columns in order. *)
Record DataFrame : Type := mkDataFrame {
  index_len : nat;
  cols : list (string * list cell)
}.

Definition column_names (df : DataFrame) : list string := fst <$> cols df.

Fixpoint assoc {V} (k : string) (d : list (string * V)) : option V :=
  match d with
  | [] => None
  | (k', v) :: d' => if String.eqb k k' then Some v else assoc k d'
  end.

(** [df[name]] *)
Definition column (df : DataFrame) (name : string) : option (list cell) :=
  assoc name (cols df).

(** [df[name].iloc[i]] *)
Definition cell_at (df : DataFrame) (name : string) (i : nat) : option cell :=
  c ← column df name; c !! i.

(** [df.iloc[i]]: the cells of row [i], in column order. *)
Definition iloc (df : DataFrame) (i : nat) : list (option cell) :=
  (fun kc => kc.2 !! i) <$> cols df.

(** ** NumPy: [default_rng], [Generator.normal], [Generator.random],
     [Generator.choice] *)

(** [np.sqrt(np.finfo(np.float64).eps)], the square root of [2^-52]. *)
Definition atol : float64 := Fin (1 # 2 ^ 26).

(** [kahan_sum] of [_generator.pyx], transcribed; it starts from the first
    element, and the model gives zero for an empty array. *)
Fixpoint kahan_loop (xs : list float64) (sum c : float64) : float64 :=
  match xs with
  | [] => sum
  | x :: xs' =>
      let y := F64.sub x c in
      let t := F64.add sum y in
      let c' := F64.sub (F64.sub t sum) y in
      kahan_loop xs' t c'
  end.

Definition kahan_sum (p : list float64) : float64 :=
  match p with
  | [] => Fin 0
  | x :: xs => kahan_loop xs x (Fin 0)
  end.

(** The checks [Generator.choice] makes on [p], in its order; the result is
  the exception it raises, if any. *)
Definition check_p (pop_size : nat) (p : list float64) : option exn :=
  if negb (length p =? pop_size)%nat
  then Some (ValueError "a and p must have same size")
  else
    let p_sum := kahan_sum p in
    if F64.isnan p_sum
    then Some (ValueError "probabilities contain NaN")
    else if existsb (fun x => F64.ltb x (Fin 0)) p
    then Some (ValueError "probabilities are not non-negative")
    else if F64.ltb atol (F64.abs (F64.sub p_sum (Fin 1)))
    then Some (ValueError "probabilities do not sum to 1")
    else None.

(** [p.cumsum()] *)
Fixpoint cumsum_from (acc : float64) (p : list float64) : list float64 :=
  match p with
  | [] => []
  | x :: p' => let s := F64.add acc x in s :: cumsum_from s p'
  end.

Definition cumsum (p : list float64) : list float64 :=
  match p with
  | [] => []
  | x :: p' => x :: cumsum_from x p'
  end.

(** The binary search of [searchsorted(..., side='right')]: [fuel] bounds
  the iterations of the loop [while (min_idx < max_idx)]. *)
Fixpoint binsearch_right (arr : list float64) (key : float64)
    (fuel min_idx max_idx : nat) : nat :=
  match fuel with
  | O => min_idx
  | S fuel' =>
      if (min_idx <? max_idx)%nat
      then
        let mid := (min_idx + (max_idx - min_idx) / 2)%nat in
        if F64.ltb key (nth mid arr NaN)
        then binsearch_right arr key fuel' min_idx mid
        else binsearch_right arr key fuel' (mid + 1)%nat max_idx
      else min_idx
  end.

Definition searchsorted_right (arr : list float64) (key : float64) : nat :=
  binsearch_right arr key (length arr) 0 (length arr).

(** [a.take(idx)] with the default mode, which raises on a bad index. *)
Fixpoint take_idx {A} (a : list A) (idx : list nat) : outcome (list A) :=
  match idx with
  | [] => Ok []
  | i :: idx' =>
      match a !! i with
      | None => Raise (IndexError "index out of bounds")
      | Some x =>
          match take_idx a idx' with
          | Ok xs => Ok (x :: xs)
          | Raise e => Raise e
          end
      end
  end.

(** A rate is a probability: [0 <= r <= 1] as binary64 comparisons (false
  for a NaN). *)
Definition rate_ok (r : float64) : bool :=
  F64.leb (Fin 0) r && F64.leb r (Fin 1).

(** The number a patient id spells: the decimal digits after the ["P"]. *)
Definition id_number (s : string) : option Z :=
  match s with
  | String "P" digits => Z.of_uint <$> NilEmpty.uint_of_string digits
  | _ => None
  end.

(** The cumulative distribution of [p], once divided by its last entry,
  ends at one (or above). *)
Definition cdf_closed (p : list float64) : Prop :=
  exists total c,
    last (cumsum p) = Some total
    /\ F64.div total total = Fin c /\ (1 <= c)%Q.

(** The two fixed probability vectors of the generator. *)
Definition p_gender : list float64 := [Fin (48 # 100); Fin (52 # 100)].
Definition p_race : list float64 :=
  [Fin (60 # 100); Fin (15 # 100); Fin (15 # 100);
   Fin (5 # 100); Fin (5 # 100)].

(** The arrays one run of the generator draws, in drawing order. *)
Record draws : Type := mkDraws {
  x_of : list float64;
  gender_of : list string;
  race_of : list string;
  readmission_of : list Z;
  sepsis_of : list Z;
  mortality_of : list Z
}.

(** The dict the generator hands to [pd.DataFrame], and the frame made of
  it. *)
Definition ehr_dict (n_patients : Z) (d : draws) : list (string * list cell) :=
  [("patient_id", CStr <$> (patient_id_of <$> range n_patients));
   ("age", CInt <$> (astype_int <$>
                       (clip (F64.of_Z 18) (F64.of_Z 100) <$> x_of d)));
   ("gender", CStr <$> gender_of d);
   ("race", CStr <$> race_of d);
   ("readmission", CInt <$> readmission_of d);
   ("sepsis", CInt <$> sepsis_of d);
   ("mortality", CInt <$> mortality_of d)].

Definition frame_of (n_patients : Z) (d : draws) : DataFrame :=
  mkDataFrame (Z.to_nat n_patients) (ehr_dict n_patients d).

(** Row [i] as the generation order has it: the id made from [i] and the
    [i]-th element of every drawn array. *)
Definition row_of (d : draws) (i : nat) : list (option cell) :=
  [Some (CStr (patient_id_of (Z.of_nat i)));
   CInt <$> (astype_int <$>
               (clip (F64.of_Z 18) (F64.of_Z 100) <$> (x_of d !! i)));
   CStr <$> (gender_of d !! i);
   CStr <$> (race_of d !! i);
   CInt <$> (readmission_of d !! i);
   CInt <$> (sepsis_of d !! i);
   CInt <$> (mortality_of d !! i)].

(** The frame of a run with no patient. *)
Definition empty_frame : DataFrame :=
  mkDataFrame 0
    [("patient_id", []); ("age", []); ("gender", []); ("race", []);
     ("readmission", []); ("sepsis", []); ("mortality", [])].

(** [str i], [str (i+1)], ..., [str (i+k-1)] all have at most six
    characters. *)
Fixpoint short_from (k : nat) (i : Z) : bool :=
  match k with
  | O => true
  | S k' => (String.length (str i) <=? 6)%nat && short_from k' (i + 1)
  end.

(** The three outcome flags, the column each one fills, and the argument
    list with the rate of one flag replaced. *)
Inductive flag : Type := Readmission | Sepsis | Mortality.

Definition flag_column (f : flag) : string :=
  match f with
  | Readmission => "readmission"
  | Sepsis => "sepsis"
  | Mortality => "mortality"
  end.

Definition set_rate (f : flag) (r : float64)
    (rates : float64 * float64 * float64) : float64 * float64 * float64 :=
  let '(rr, sr, mr) := rates in
  match f with
  | Readmission => (r, sr, mr)
  | Sepsis => (rr, r, mr)
  | Mortality => (rr, sr, r)
  end.

(** ** The bit generator

  The bit generator behind [np.random.default_rng]: its state, the state
  a seed gives, its raw 64-bit output and its standard normal sampler.
  An output is reduced modulo [2^64] where it is used. *)
Record BitGenerator : Type := mkBitGenerator {
  state : Type;
  seed_state : Z -> state;
  next_uint64 : state -> Z * state;
  random_standard_normal : state -> Q * state
}.

(** ** A concrete bit generator, used to run the model

  A 64-bit linear congruential generator (Knuth's MMIX constants); its
  normal variate is the Irwin-Hall sum of twelve uniforms minus six. *)
Module Lcg.

Definition state : Type := Z.

Definition seed (s : Z) : state := s mod 2 ^ 64.

Definition next (g : state) : Z * state :=
  let g' := (6364136223846793005 * g + 1442695040888963407) mod 2 ^ 64 in
  (g', g').

Fixpoint sum_uniform (k : nat) (acc : Q) (g : state) : Q * state :=
  match k with
  | O => (acc, g)
  | S k' =>
      let (x, g') := next g in
      sum_uniform k' (Qred (acc + Qmake (Z.shiftr x 11) (2 ^ 53))) g'
  end.

Definition normal (g : state) : Q * state :=
  let (s, g') := sum_uniform 12 0%Q g in (Qred (s - 6), g').

Definition bitgen : BitGenerator := mkBitGenerator state seed next normal.

End Lcg.

Section Sampler.

Variable BG : BitGenerator.

(** [np.random.default_rng(seed)] for an [int] seed. *)
Definition default_rng (seed : Z) : M (state BG) ref :=
  if seed <? 0
  then raise (ValueError "expected non-negative integer")
  else alloc (seed_state BG seed).

(** [next_double]: [(next_uint64 >> 11) * (1.0 / 9007199254740992.0)]. *)
Definition next_double (g : state BG) : float64 * state BG :=
  let (x, g') := next_uint64 BG g in
  (Fin (Qmake (Z.shiftr (x mod 2 ^ 64) 11) (2 ^ 53)), g').

(** [random_normal(loc, scale)]: [loc + scale * random_standard_normal()]. *)
Definition random_normal (loc scale : float64) (g : state BG)
  : float64 * state BG :=
  let (z, g') := random_standard_normal BG g in
  (F64.add loc (F64.mul scale (Fin z)), g').

(** Filling an array of [k] elements, one draw after the other. *)
Fixpoint fill {A} (draw : state BG -> A * state BG) (k : nat) (g : state BG)
  : list A * state BG :=
  match k with
  | O => ([], g)
  | S k' =>
      let (x, g1) := draw g in
      let (xs, g2) := fill draw k' g1 in
      (x :: xs, g2)
  end.

Definition negative_dimensions : exn :=
  ValueError "negative dimensions are not allowed".

Definition normal_impl (loc scale : float64) (size : Z) (g : state BG)
  : outcome (list float64) * state BG :=
  if F64.ltb scale (Fin 0) then (Raise (ValueError "scale < 0"), g)
  else if size <? 0 then (Raise negative_dimensions, g)
  else let (xs, g') := fill (random_normal loc scale) (Z.to_nat size) g in
       (Ok xs, g').

Definition random_impl (size : Z) (g : state BG)
  : outcome (list float64) * state BG :=
  if size <? 0 then (Raise negative_dimensions, g)
  else let (us, g') := fill next_double (Z.to_nat size) g in (Ok us, g').

(** [Generator.choice(a, size, p=p)] with the default [replace=True]. *)
Definition choice_impl {A} (a : list A) (size : Z) (p : list float64)
    (g : state BG) : outcome (list A) * state BG :=
  if (length a =? 0)%nat && negb (size =? 0)
  then (Raise (ValueError "a cannot be empty unless no samples are taken"), g)
  else
    match check_p (length a) p with
    | Some e => (Raise e, g)
    | None =>
        let cdf := cumsum p in
        match last cdf with
        | None => (Raise (IndexError "index -1 is out of bounds"), g)
        | Some total =>
            let cdf := (fun c => F64.div c total) <$> cdf in
            match random_impl size g with
            | (Raise e, g') => (Raise e, g')
            | (Ok uniform_samples, g') =>
                let idx := searchsorted_right cdf <$> uniform_samples in
                (take_idx a idx, g')
            end
        end
    end.

Definition Generator_normal (rng : ref) (loc scale : float64) (size : Z)
  : M (state BG) (list float64) :=
  on_bitgen rng (normal_impl loc scale size).

Definition Generator_choice {A} (rng : ref) (a : list A) (size : Z)
    (p : list float64) : M (state BG) (list A) :=
  on_bitgen rng (choice_impl a size p).

(** [pd.DataFrame(data)] for a dict of one-dimensional columns. *)
Definition pd_DataFrame (data : list (string * list cell))
  : M (state BG) DataFrame :=
  match data with
  | [] => ret (mkDataFrame 0 [])
  | (_, c) :: rest =>
      if forallb (fun kc => (length kc.2 =? length c)%nat) rest
      then ret (mkDataFrame (length c) data)
      else raise (ValueError "All arrays must be of the same length")
  end.

(** ** The generator, line by line *)

Definition generate_synthetic_ehr
    (n_patients random_state : Z)
    (readmission_rate sepsis_rate mortality_rate : float64)
  : M (state BG) DataFrame :=
  rng <- default_rng random_state ;;
  let patient_ids := patient_id_of <$> range n_patients in
  x <- Generator_normal rng (F64.of_Z 65) (F64.of_Z 15) n_patients ;;
  let age := astype_int <$> (clip (F64.of_Z 18) (F64.of_Z 100) <$> x) in
  gender <- Generator_choice rng ["M"; "F"] n_patients p_gender ;;
  race <- Generator_choice rng
            ["White"; "Black"; "Hispanic"; "Asian"; "Other"] n_patients
            p_race ;;
  readmission <- Generator_choice rng [0; 1] n_patients
                   [F64.sub (Fin 1) readmission_rate; readmission_rate] ;;
  sepsis <- Generator_choice rng [0; 1] n_patients
              [F64.sub (Fin 1) sepsis_rate; sepsis_rate] ;;
  mortality <- Generator_choice rng [0; 1] n_patients
                 [F64.sub (Fin 1) mortality_rate; mortality_rate] ;;
  pd_DataFrame
    [("patient_id", CStr <$> patient_ids);
     ("age", CInt <$> age);
     ("gender", CStr <$> gender);
     ("race", CStr <$> race);
     ("readmission", CInt <$> readmission);
     ("sepsis", CInt <$> sepsis);
     ("mortality", CInt <$> mortality)].


(** The six drawing steps as one relation: from the bit generator state
    [g0] the run draws the arrays [d] and leaves the state [g6]. *)
Definition sampled (n_patients : Z)
    (readmission_rate sepsis_rate mortality_rate : float64)
    (g0 : state BG) (d : draws) (g6 : state BG) : Prop :=
  exists g1 g2 g3 g4 g5,
    normal_impl (F64.of_Z 65) (F64.of_Z 15) n_patients g0 = (Ok (x_of d), g1)
    /\ choice_impl ["M"; "F"] n_patients p_gender g1 = (Ok (gender_of d), g2)
    /\ choice_impl ["White"; "Black"; "Hispanic"; "Asian"; "Other"]
         n_patients p_race g2 = (Ok (race_of d), g3)
    /\ choice_impl [0; 1] n_patients
         [F64.sub (Fin 1) readmission_rate; readmission_rate] g3
       = (Ok (readmission_of d), g4)
    /\ choice_impl [0; 1] n_patients
         [F64.sub (Fin 1) sepsis_rate; sepsis_rate] g4
       = (Ok (sepsis_of d), g5)
    /\ choice_impl [0; 1] n_patients
         [F64.sub (Fin 1) mortality_rate; mortality_rate] g5
       = (Ok (mortality_of d), g6).

End Sampler.

Arguments next_double {BG} g.
Arguments random_normal {BG} loc scale g.
Arguments fill {BG A} draw k g.
Arguments normal_impl {BG} loc scale size g.
Arguments random_impl {BG} size g.
Arguments choice_impl {BG A} a size p g.
Arguments Generator_normal {BG} rng loc scale size.
Arguments Generator_choice {BG A} rng a size p.
Arguments pd_DataFrame {BG} data.
Arguments sampled {BG} n_patients readmission_rate sepsis_rate mortality_rate
  g0 d g6.

(** The generator run in an empty store with the concrete bit generator. *)
Definition run_lcg (n_patients random_state : Z)
    (readmission_rate sepsis_rate mortality_rate : float64)
  : outcome DataFrame * store Lcg.state :=
  generate_synthetic_ehr Lcg.bitgen n_patients random_state
    readmission_rate sepsis_rate mortality_rate [].

(** The default rates of the signature: 0.05, 0.02, 0.03. *)
Definition default_readmission_rate : float64 := Fin (5 # 100).
Definition default_sepsis_rate : float64 := Fin (2 # 100).
Definition default_mortality_rate : float64 := Fin (3 # 100).

(** A run of three patients with the defaults of the signature, and the
    same run with another mortality rate. *)
Definition demo_frame : DataFrame :=
  Eval vm_compute in
    match (run_lcg 3 42 default_readmission_rate default_sepsis_rate
             default_mortality_rate).1 with
    | Ok df => df
    | Raise _ => mkDataFrame 0 []
    end.

Definition demo_frame' : DataFrame :=
  Eval vm_compute in
    match (run_lcg 3 42 default_readmission_rate default_sepsis_rate
             (Fin (1 # 2))).1 with
    | Ok df => df
    | Raise _ => mkDataFrame 0 []
    end.

Definition demo_store : store Lcg.state :=
  Eval vm_compute in
    (run_lcg 3 42 default_readmission_rate default_sepsis_rate
       default_mortality_rate).2.

(** The run of two patients with the same seed. *)
Definition demo_frame2 : DataFrame :=
  Eval vm_compute in
    match (run_lcg 2 42 default_readmission_rate default_sepsis_rate
             default_mortality_rate).1 with
    | Ok df => df
    | Raise _ => mkDataFrame 0 []
    end.

Definition demo_store2 : store Lcg.state :=
  Eval vm_compute in
    (run_lcg 2 42 default_readmission_rate default_sepsis_rate
       default_mortality_rate).2.

(** The same run with a readmission rate of zero. *)
Definition demo_frame0 : DataFrame :=
  Eval vm_compute in
    match (run_lcg 3 42 (Fin 0) default_sepsis_rate
             default_mortality_rate).1 with
    | Ok df => df
    | Raise _ => mkDataFrame 0 []
    end.

(** ** The tests of [tests/test_data.py]

    What the tests use of pandas and of Python, then the five tests of
    [TestSyntheticDataGenerator] that do not depend on the random stream. *)

#[global] Instance cell_eq_dec : EqDecision cell.
Proof. solve_decision. Defined.

#[global] Instance DataFrame_eq_dec : EqDecision DataFrame.
Proof. solve_decision. Defined.

(** [col in df.columns] *)
Definition has_column (df : DataFrame) (col : string) : bool :=
  bool_decide (col ∈ column_names df).

(** The integers of an integer column; [None] for a column that holds a
    string. *)
Fixpoint ints_of (c : list cell) : option (list Z) :=
  match c with
  | [] => Some []
  | CInt z :: c' => cons z <$> ints_of c'
  | CStr _ :: _ => None
  end.

(** [Series.min()] and [Series.max()] of an integer column: the least and
    the greatest cell, and NaN for an empty column.  [None] for a column of
    strings, whose extremum is not a number. *)
Definition Series_min (c : list cell) : option float64 :=
  zs ← ints_of c;
  Some match zs with
       | [] => NaN
       | z :: zs' => F64.of_Z (foldr Z.min z zs')
       end.

Definition Series_max (c : list cell) : option float64 :=
  zs ← ints_of c;
  Some match zs with
       | [] => NaN
       | z :: zs' => F64.of_Z (foldr Z.max z zs')
       end.

(** [Series.nunique()]: the number of distinct cells. *)
Definition nunique (c : list cell) : nat := length (remove_dups c).

(** The rate of one flag in an argument list. *)
Definition rate_of (f : flag) (rates : float64 * float64 * float64)
  : float64 :=
  let '(rr, sr, mr) := rates in
  match f with
  | Readmission => rr
  | Sepsis => sr
  | Mortality => mr
  end.

(** ** The draws behind each column

    The element [choice] picks for one uniform double [u]:
    [a[searchsorted(cdf, u, side='right')]].  [dflt] stands for an index
    out of range, which no returned run has. *)
Definition pick {A} (a : list A) (p : list float64) (dflt : A) (u : float64)
  : A :=
  let cdf := cumsum p in
  match last cdf with
  | Some total =>
      default dflt
        (a !! searchsorted_right ((fun c => F64.div c total) <$> cdf) u)
  | None => dflt
  end.

(** The flag [choice([0, 1], p=[1 - r, r])] gives for the uniform double
    [u]. *)
Definition flag_of_uniform (r u : float64) : Z :=
  pick [0; 1] [F64.sub (Fin 1) r; r] 0 u.

(** The state of the generator once the ages are drawn. *)
Definition after_ages (BG : BitGenerator) (n_patients random_state : Z)
  : state BG :=
  (fill (random_normal (F64.of_Z 65) (F64.of_Z 15)) (Z.to_nat n_patients)
     (seed_state BG random_state)).2.

(** The uniform doubles of the five [choice] calls, as the one sequence
    the generator gives after the ages. *)
Definition uniforms_after_ages (BG : BitGenerator)
    (n_patients random_state : Z) : list float64 :=
  (fill next_double (5 * Z.to_nat n_patients)
     (after_ages BG n_patients random_state)).1.

(** Its [j]-th run of [n_patients] doubles: [j = 0] for gender, [1] for
    race, [2], [3], [4] for the three flags. *)
Definition uniform_slice (BG : BitGenerator) (n_patients random_state : Z)
    (j : nat) : list float64 :=
  take (Z.to_nat n_patients)
    (drop (j * Z.to_nat n_patients)
       (uniforms_after_ages BG n_patients random_state)).

Definition flag_slice (f : flag) : nat :=
  match f with
  | Readmission => 2
  | Sepsis => 3
  | Mortality => 4
  end%nat.

(** The bit generator with another normal sampler. *)
Definition with_normal (BG : BitGenerator)
    (normal : state BG -> Q * state BG) : BitGenerator :=
  mkBitGenerator (state BG) (seed_state BG) (next_uint64 BG) normal.

(** The state after [j] runs of [k] draws. *)
Fixpoint state_after_runs {BG : BitGenerator} {A}
    (draw : state BG -> A * state BG) (j k : nat) (g : state BG) : state BG :=
  match j with
  | O => g
  | S j' => state_after_runs draw j' k (fill draw k g).2
  end.

(** The exceptions a test can end with: one of the library, a failed
    [assert], a missing column, a comparison of a string with a number. *)
Inductive pyexn : Type :=
| Library (e : exn)
| AssertionError (msg : string)
| KeyError (key : string)
| TypeError (msg : string).

Inductive verdict (A : Type) : Type :=
| Return (a : A)
| Throw (e : pyexn).
Arguments Return {A} a.
Arguments Throw {A} e.

Section TestMonad.

Variable bitgen : Type.

Definition T (A : Type) : Type := store bitgen -> verdict A * store bitgen.

Definition treturn {A} (a : A) : T A := fun st => (Return a, st).

Definition throw {A} (e : pyexn) : T A := fun st => (Throw e, st).

Definition tbind {A B} (m : T A) (k : A -> T B) : T B :=
  fun st =>
    match m st with
    | (Return a, st') => k a st'
    | (Throw e, st') => (Throw e, st')
    end.

(** A call of library or repository code from a test. *)
Definition call {A} (m : M bitgen A) : T A :=
  fun st =>
    match m st with
    | (Ok a, st') => (Return a, st')
    | (Raise e, st') => (Throw (Library e), st')
    end.

(** [assert cond, msg] *)
Definition assert_that (cond : bool) (msg : string) : T unit :=
  if cond then treturn tt else throw (AssertionError msg).

(** [df[key]] *)
Definition getitem (df : DataFrame) (key : string) : T (list cell) :=
  match column df key with
  | Some c => treturn c
  | None => throw (KeyError key)
  end.

(** [extremum >= bound] and [extremum <= bound] for the result of
    [Series.min()] or [Series.max()]. *)
Definition compare_with (cmp : float64 -> bool) (extremum : option float64)
  : T bool :=
  match extremum with
  | Some x => treturn (cmp x)
  | None =>
      throw (TypeError "not supported between instances of 'str' and 'int'")
  end.

(** [for x in xs: body] *)
Fixpoint for_each {A} (xs : list A) (body : A -> T unit) : T unit :=
  match xs with
  | [] => treturn tt
  | x :: xs' => tbind (body x) (fun _ => for_each xs' body)
  end.

(** [pd.testing.assert_frame_equal(left, right)] for frames of integers
    and strings, which are compared exactly. *)
Definition assert_frame_equal (left right : DataFrame) : T unit :=
  assert_that (bool_decide (left = right)) "DataFrame are different".

End TestMonad.

Arguments treturn {bitgen A} a.
Arguments throw {bitgen A} e.
Arguments tbind {bitgen A B} m k.
Arguments call {bitgen A} m.
Arguments assert_that {bitgen} cond msg.
Arguments getitem {bitgen} df key.
Arguments compare_with {bitgen} cmp extremum.
Arguments for_each {bitgen A} xs body.
Arguments assert_frame_equal {bitgen} left right.

Declare Scope test_scope.
Delimit Scope test_scope with test.
Notation "x <- c1 ;; c2" := (tbind c1 (fun x => c2))
  (at level 100, c1 at next level, right associativity) : test_scope.

(** The defaults of the signature of [generate_synthetic_ehr]. *)
Definition default_n_patients : Z := 1000.
Definition default_random_state : Z := 42.

Section Tests.

Variable BG : BitGenerator.

Local Open Scope test_scope.

(** [generate_synthetic_ehr(n)] and
    [generate_synthetic_ehr(n, random_state=seed)] as the tests call it:
    the rates take their defaults. *)
Definition generate_with_defaults (n_patients random_state : Z)
  : T (state BG) DataFrame :=
  call (generate_synthetic_ehr BG n_patients random_state
          default_readmission_rate default_sepsis_rate
          default_mortality_rate).

(** The assertions of the tests, each as the test makes it on the frame
    it has generated. *)
Definition assert_required_columns (df : DataFrame) : T (state BG) unit :=
  let required_cols :=
    ["patient_id"; "age"; "gender"; "readmission"; "sepsis"; "mortality"] in
  assert_that (forallb (has_column df) required_cols) "Missing columns".

Definition assert_row_count (n : Z) (df : DataFrame) : T (state BG) unit :=
  assert_that (Z.of_nat (index_len df) =? n) "Expected n rows".

Definition assert_age_range (df : DataFrame) : T (state BG) unit :=
  age <- getitem df "age" ;;
  above <- compare_with (fun x => F64.leb (F64.of_Z 18) x) (Series_min age) ;;
  _ <- assert_that above "Age should be >= 18 (adult patients)" ;;
  age' <- getitem df "age" ;;
  below <- compare_with (fun x => F64.leb x (F64.of_Z 100)) (Series_max age') ;;
  assert_that below "Age should be <= 100".

Definition assert_ids_unique (df : DataFrame) : T (state BG) unit :=
  ids <- getitem df "patient_id" ;;
  assert_that (nunique ids =? index_len df)%nat "Patient IDs should be unique".

Definition test_synthetic_data_has_correct_columns : T (state BG) unit :=
  df <- generate_with_defaults 100 default_random_state ;;
  assert_required_columns df.

Definition test_synthetic_data_has_correct_size : T (state BG) unit :=
  for_each [100; 500; 1000]
    (fun n =>
       df <- generate_with_defaults n default_random_state ;;
       assert_row_count n df).

Definition test_synthetic_data_reproducibility : T (state BG) unit :=
  df1 <- generate_with_defaults 100 42 ;;
  df2 <- generate_with_defaults 100 42 ;;
  assert_frame_equal df1 df2.

Definition test_synthetic_data_age_range : T (state BG) unit :=
  df <- generate_with_defaults 1000 default_random_state ;;
  assert_age_range df.

Definition test_synthetic_data_patient_ids_unique : T (state BG) unit :=
  df <- generate_with_defaults 1000 default_random_state ;;
  assert_ids_unique df.

End Tests.

(** ** Facts about patient ids *)

Lemma str_nonneg (i : Z) :
  0 <= i ->
  exists d, d <> Decimal.Nil
            /\ str i = NilEmpty.string_of_uint d /\ Z.of_uint d = i.
Proof.
  intros Hi. destruct i as [|p|p]; [| | lia].
  - exists (Decimal.D0 Decimal.Nil). repeat split; discriminate.
  - exists (Pos.to_uint p). split; [apply DecimalPos.Unsigned.to_uint_nonnil |].
    split.
    + unfold str. simpl.
      pose proof (DecimalPos.Unsigned.to_uint_nonnil p) as Hn.
      destruct (Pos.to_uint p); [congruence | reflexivity ..].
    + unfold Z.of_uint. now rewrite DecimalPos.Unsigned.of_to.
Qed.

Lemma string_of_uint_head (d : Decimal.uint) :
  d <> Decimal.Nil ->
  exists c rest,
    NilEmpty.string_of_uint d = String c rest /\ is_sign c = false.
Proof. destruct d; [congruence | simpl; eauto ..]. Qed.

Lemma zfill_digits (width : nat) (d : Decimal.uint) :
  d <> Decimal.Nil ->
  zfill width (NilEmpty.string_of_uint d)
  = zeros (width - String.length (NilEmpty.string_of_uint d))
      +:+ NilEmpty.string_of_uint d.
Proof.
  intros (c & rest & Hs & Hc)%string_of_uint_head.
  unfold zfill. rewrite Hs.
  destruct (width - String.length (String c rest))%nat; [reflexivity |].
  now rewrite Hc.
Qed.

Lemma append_nil (s : string) : EmptyString +:+ s = s.
Proof. reflexivity. Qed.

Lemma append_cons (c : ascii) (s t : string) :
  String c s +:+ t = String c (s +:+ t).
Proof. reflexivity. Qed.

Lemma uint_of_string_zeros (k : nat) (s : string) :
  NilEmpty.uint_of_string (zeros k +:+ s)
  = Nat.iter k Decimal.D0 <$> NilEmpty.uint_of_string s.
Proof.
  induction k as [|k IH].
  - change (zeros 0) with EmptyString. rewrite append_nil.
    now destruct (NilEmpty.uint_of_string s).
  - change (zeros (S k)) with (String "0"%char (zeros k)).
    rewrite append_cons. cbn [NilEmpty.uint_of_string]. rewrite IH.
    now destruct (NilEmpty.uint_of_string s).
Qed.

Lemma of_uint_zeros (k : nat) (d : Decimal.uint) :
  Z.of_uint (Nat.iter k Decimal.D0 d) = Z.of_uint d.
Proof. induction k as [|k IH]; [reflexivity | exact IH]. Qed.

(** The digits of a patient id spell the index it was made from. *)
Lemma id_number_patient_id (i : Z) :
  0 <= i -> id_number (patient_id_of i) = Some i.
Proof.
  intros (d & Hd & Hs & Hv)%str_nonneg.
  unfold patient_id_of, id_number. rewrite Hs, zfill_digits by assumption.
  rewrite append_cons, append_nil, uint_of_string_zeros, NilEmpty.usu.
  simpl. now rewrite of_uint_zeros, Hv.
Qed.

Lemma patient_id_of_inj (i j : Z) :
  0 <= i -> 0 <= j -> patient_id_of i = patient_id_of j -> i = j.
Proof.
  intros Hi Hj E. apply id_number_patient_id in Hi, Hj.
  rewrite E in Hi. congruence.
Qed.

Lemma zeros_length (k : nat) : String.length (zeros k) = k.
Proof. induction k; simpl; congruence. Qed.

Lemma append_length (s t : string) :
  String.length (s +:+ t) = (String.length s + String.length t)%nat.
Proof.
  induction s as [|c s IH]; [reflexivity |].
  rewrite append_cons. simpl. congruence.
Qed.

(** An id has the ["P"] and at least six digits. *)
Lemma patient_id_length (i : Z) :
  0 <= i ->
  String.length (patient_id_of i)
  = S (Nat.max 6 (String.length (str i))).
Proof.
  intros (d & Hd & Hs & _)%str_nonneg.
  unfold patient_id_of. rewrite Hs, zfill_digits by assumption.
  rewrite append_cons, append_nil. simpl.
  rewrite append_length, zeros_length. lia.
Qed.

Lemma range_lookup (n : Z) (i : nat) :
  (i < Z.to_nat n)%nat -> range n !! i = Some (Z.of_nat i).
Proof.
  intros Hi. unfold range. rewrite list_lookup_fmap, lookup_seq_lt by lia.
  reflexivity.
Qed.

Lemma range_elem (n i : Z) : i ∈ range n -> 0 <= i < n.
Proof.
  unfold range. intros (k & -> & Hk)%list_elem_of_fmap.
  apply elem_of_seq in Hk. lia.
Qed.

Lemma range_NoDup (n : Z) : NoDup (range n).
Proof.
  unfold range. apply NoDup_fmap_2; [apply _ | apply NoDup_seq].
Qed.

Lemma patient_ids_NoDup (n : Z) : NoDup (patient_id_of <$> range n).
Proof.
  apply NoDup_fmap_2_strong; [| apply range_NoDup].
  intros i j Hi%range_elem Hj%range_elem. apply patient_id_of_inj; lia.
Qed.

Section Facts.

Variable BG : BitGenerator.
Implicit Types g h : state BG.
Implicit Types st : store (state BG).

(** ** Facts about the helpers *)

(** *** Clipping and truncation *)

Lemma clip_fin (lo hi q : Q) :
  (lo <= hi)%Q ->
  exists q', clip (Fin lo) (Fin hi) (Fin q) = Fin q'
             /\ (lo <= q')%Q /\ (q' <= hi)%Q.
Proof.
  intros Hlohi. unfold clip, F64.maximum, F64.minimum. simpl.
  destruct (Qle_bool lo q) eqn:E1; simpl.
  - apply Qle_bool_iff in E1.
    destruct (Qle_bool q hi) eqn:E2.
    + apply Qle_bool_iff in E2. eauto.
    + exists hi. split; [reflexivity | split; [assumption | apply Qle_refl]].
  - destruct (Qle_bool lo hi) eqn:E2.
    + exists lo. split; [reflexivity | split; [apply Qle_refl | assumption]].
    + apply Qle_bool_iff in Hlohi. congruence.
Qed.

Lemma truncate_between (a b : Z) (q : Q) :
  0 <= a -> (inject_Z a <= q)%Q -> (q <= inject_Z b)%Q ->
  a <= Z.quot (Qnum q) (Z.pos (Qden q)) <= b.
Proof.
  destruct q as [num den]. unfold Qle. simpl. intros Ha Hlo Hhi.
  rewrite Z.mul_1_r in Hlo, Hhi.
  assert (0 <= num) by nia.
  rewrite Z.quot_div_nonneg by lia.
  split.
  - apply Z.div_le_lower_bound; lia.
  - apply Z.div_le_upper_bound; lia.
Qed.

Lemma age_of_draw_range (q : Q) :
  18 <= astype_int (clip (F64.of_Z 18) (F64.of_Z 100) (Fin q)) <= 100.
Proof.
  unfold F64.of_Z.
  destruct (clip_fin (inject_Z 18) (inject_Z 100) q) as (q' & -> & Hlo & Hhi).
  { unfold Qle; simpl; lia. }
  unfold astype_int.
  pose proof (truncate_between 18 100 q' ltac:(lia) Hlo Hhi) as Ht.
  replace ((INT64_MIN <=? _) && (_ <? 2 ^ 63)) with true; [exact Ht |].
  symmetry. apply andb_true_iff. unfold INT64_MIN.
  split; [apply Z.leb_le | apply Z.ltb_lt]; lia.
Qed.

(** *** Filling an array *)

Lemma fill_length {A} (draw : state BG -> A * state BG) k g :
  length (fill draw k g).1 = k.
Proof.
  revert g. induction k as [|k IH]; intros g; simpl; [reflexivity |].
  destruct (draw g) as [x g1]. specialize (IH g1).
  destruct (fill draw k g1) as [xs g2]. simpl in *. congruence.
Qed.

Lemma fill_Forall {A} (P : A -> Prop) (draw : state BG -> A * state BG) k g :
  (forall g0, P (draw g0).1) -> Forall P (fill draw k g).1.
Proof.
  intros Hd. revert g. induction k as [|k IH]; intros g; simpl.
  - constructor.
  - pose proof (Hd g) as Hx. destruct (draw g) as [x g1].
    specialize (IH g1). destruct (fill draw k g1) as [xs g2].
    simpl in *. constructor; assumption.
Qed.

Lemma random_normal_fin loc scale (g : state BG) :
  exists q, (random_normal (Fin loc) (Fin scale) g).1 = Fin q.
Proof.
  unfold random_normal. destruct (random_standard_normal BG g) as [z g'].
  simpl. eauto.
Qed.

(** A uniform double lies in [[0, 1)]. *)
Lemma next_double_range (g : state BG) :
  exists u, (next_double g).1 = Fin u /\ (0 <= u)%Q /\ (u < 1)%Q.
Proof.
  unfold next_double. destruct (next_uint64 BG g) as [x g']. simpl.
  eexists; split; [reflexivity |].
  pose proof (Z.mod_pos_bound x (2 ^ 64) ltac:(lia)) as Hx.
  rewrite Z.shiftr_div_pow2 by lia.
  assert (0 <= x mod 2 ^ 64 / 2 ^ 11 < 2 ^ 53) as Hd.
  { split; [apply Z.div_pos; lia |].
    apply Z.div_lt_upper_bound; lia. }
  unfold Qle, Qlt; simpl. lia.
Qed.

(** *** The binary search *)

Lemma binsearch_right_S arr key fuel lo hi :
  binsearch_right arr key (S fuel) lo hi =
  if (lo <? hi)%nat
  then
    if F64.ltb key (nth (lo + (hi - lo) / 2) arr NaN)
    then binsearch_right arr key fuel lo (lo + (hi - lo) / 2)
    else binsearch_right arr key fuel (lo + (hi - lo) / 2 + 1) hi
  else lo.
Proof. reflexivity. Qed.

Lemma binsearch_right_below arr key fuel lo hi :
  F64.ltb key (nth (length arr - 1) arr NaN) = true ->
  (lo <= length arr - 1)%nat -> (hi <= length arr)%nat ->
  (binsearch_right arr key fuel lo hi <= length arr - 1)%nat.
Proof.
  intros Hlast. revert lo hi.
  induction fuel as [|fuel IH]; intros lo hi Hlo Hhi; [assumption |].
  rewrite binsearch_right_S.
  destruct (lo <? hi)%nat eqn:Hlt; [| assumption].
  apply Nat.ltb_lt in Hlt.
  assert ((hi - lo) / 2 < hi - lo)%nat as Hmid.
  { apply Nat.div_lt; lia. }
  destruct (F64.ltb key (nth (lo + (hi - lo) / 2) arr NaN)) eqn:Hk.
  - apply IH; lia.
  - apply IH; [| assumption].
    destruct (decide (lo + (hi - lo) / 2 = length arr - 1)%nat) as [E|E].
    + rewrite E in Hk. congruence.
    + lia.
Qed.

(** The fuel of [searchsorted_right] is enough: the loop has stopped
    when it runs out, so more fuel gives the same index. *)
Lemma binsearch_right_fuel arr key fuel extra lo hi :
  (hi - lo <= fuel)%nat ->
  binsearch_right arr key (fuel + extra) lo hi
  = binsearch_right arr key fuel lo hi.
Proof.
  revert lo hi. induction fuel as [|fuel IH]; intros lo hi Hf.
  - destruct extra; [reflexivity |].
    rewrite Nat.add_0_l, binsearch_right_S.
    replace (lo <? hi)%nat with false; [reflexivity |].
    symmetry. apply Nat.ltb_ge. lia.
  - replace (S fuel + extra)%nat with (S (fuel + extra)) by lia.
    rewrite !binsearch_right_S.
    destruct (lo <? hi)%nat eqn:Hlt; [| reflexivity].
    apply Nat.ltb_lt in Hlt.
    assert ((hi - lo) / 2 < hi - lo)%nat by (apply Nat.div_lt; lia).
    destruct (F64.ltb key _); apply IH; lia.
Qed.

(** *** [take] and [choice] *)

Lemma take_idx_inv {A} (a : list A) idx xs :
  take_idx a idx = Ok xs ->
  length xs = length idx /\ Forall (fun x => x ∈ a) xs.
Proof.
  revert xs. induction idx as [|i idx IH]; intros xs; simpl.
  - intros [= <-]. split; [reflexivity | constructor].
  - destruct (a !! i) as [x|] eqn:Hx; [| discriminate].
    destruct (take_idx a idx) as [ys|e]; [| discriminate].
    intros [= <-]. destruct (IH ys eq_refl) as [Hlen Hall].
    split; [simpl; congruence |].
    constructor; [| assumption].
    apply list_elem_of_lookup. eauto.
Qed.

Lemma take_idx_ok {A} (a : list A) idx :
  Forall (fun i => (i < length a)%nat) idx ->
  exists xs, take_idx a idx = Ok xs.
Proof.
  induction 1 as [|i idx Hi _ [xs IH]]; simpl; [eauto |].
  destruct (lookup_lt_is_Some_2 a i Hi) as [x ->].
  rewrite IH. eauto.
Qed.

Lemma random_impl_inv size g us g' :
  random_impl size g = (Ok us, g') ->
  0 <= size /\ fill next_double (Z.to_nat size) g = (us, g').
Proof.
  unfold random_impl. destruct (size <? 0) eqn:Hs; [discriminate |].
  apply Z.ltb_ge in Hs.
  destruct (fill next_double (Z.to_nat size) g) as [us0 g0].
  intros [= <- <-]. auto.
Qed.

Lemma random_impl_ok size g :
  0 <= size ->
  random_impl size g =
  (Ok (fill next_double (Z.to_nat size) g).1,
   (fill next_double (Z.to_nat size) g).2).
Proof.
  intros Hs. unfold random_impl.
  apply Z.ltb_ge in Hs. rewrite Hs.
  destruct (fill next_double (Z.to_nat size) g). reflexivity.
Qed.

(** What a successful [choice] gives: [size] elements of [a], for which
    exactly [size] uniform doubles were consumed, whatever [p] is. *)
Lemma choice_impl_inv {A} (a : list A) size p g xs g' :
  choice_impl a size p g = (Ok xs, g') ->
  0 <= size
  /\ check_p (length a) p = None
  /\ g' = (fill next_double (Z.to_nat size) g).2
  /\ length xs = Z.to_nat size
  /\ Forall (fun x => x ∈ a) xs.
Proof.
  unfold choice_impl.
  destruct ((length a =? 0)%nat && negb (size =? 0)); [discriminate |].
  destruct (check_p (length a) p); [discriminate |].
  destruct (last (cumsum p)) as [total|]; [| discriminate].
  destruct (random_impl size g) as [[us|e] g1] eqn:Hr; [| discriminate].
  apply random_impl_inv in Hr as [Hs Hf].
  intros [= Ht <-].
  apply take_idx_inv in Ht as [Hlen Hall].
  rewrite length_fmap in Hlen.
  pose proof (fill_length next_double (Z.to_nat size) g) as Hl.
  rewrite Hf in *. simpl in *.
  repeat split; try assumption; congruence.
Qed.

(** A failed [choice] has consumed nothing when its checks reject [p]. *)
Lemma choice_impl_reject {A} (a : list A) size p g e :
  a <> [] -> check_p (length a) p = Some e ->
  choice_impl a size p g = (Raise e, g).
Proof.
  intros Ha Hc. unfold choice_impl. rewrite Hc.
  destruct a; [congruence | reflexivity].
Qed.

Lemma cumsum_from_length acc p : length (cumsum_from acc p) = length p.
Proof.
  revert acc. induction p as [|x p IH]; intros acc; simpl; [reflexivity |].
  now rewrite IH.
Qed.

Lemma cumsum_length p : length (cumsum p) = length p.
Proof. destruct p; simpl; [reflexivity |]. now rewrite cumsum_from_length. Qed.

Lemma searchsorted_right_in_range cdf c u :
  last cdf = Some (Fin c) -> (u < 1)%Q -> (1 <= c)%Q ->
  (searchsorted_right cdf (Fin u) < length cdf)%nat.
Proof.
  intros Hlast Hu Hc.
  assert (length cdf <> 0)%nat as Hne by (destruct cdf; [discriminate | simpl; lia]).
  assert (F64.ltb (Fin u) (nth (length cdf - 1) cdf NaN) = true) as Hk.
  { rewrite nth_lookup, Nat.sub_1_r, <- last_lookup, Hlast. simpl.
    apply negb_true_iff. destruct (Qle_bool c u) eqn:E; [| reflexivity].
    apply Qle_bool_iff in E. lra. }
  pose proof (binsearch_right_below cdf (Fin u) (length cdf) 0 (length cdf)
                Hk ltac:(lia) ltac:(lia)) as Hb.
  unfold searchsorted_right. lia.
Qed.

Lemma choice_impl_ok {A} (a : list A) size p g :
  0 <= size -> check_p (length a) p = None -> cdf_closed p ->
  exists xs,
    choice_impl a size p g
    = (Ok xs, (fill next_double (Z.to_nat size) g).2).
Proof.
  intros Hs Hc (total & c & Hlast & Hdiv & Hc1).
  assert (length p = length a) as Hlen.
  { unfold check_p in Hc.
    destruct (length p =? length a)%nat eqn:E; [| discriminate].
    now apply Nat.eqb_eq in E. }
  assert (length a <> 0)%nat as Hne.
  { rewrite <- Hlen, <- cumsum_length.
    destruct (cumsum p); [discriminate | simpl; lia]. }
  unfold choice_impl.
  replace (length a =? 0)%nat with false by (symmetry; now apply Nat.eqb_neq).
  simpl. rewrite Hc, Hlast, random_impl_ok by assumption.
  set (cdf := (fun c0 => F64.div c0 total) <$> cumsum p).
  destruct (take_idx_ok a
              (searchsorted_right cdf <$> (fill next_double (Z.to_nat size) g).1))
    as [xs Hxs].
  - apply Forall_fmap.
    apply (Forall_impl _ _ _
             (fill_Forall (fun x => exists u, x = Fin u /\ (u < 1)%Q)
                next_double (Z.to_nat size) g
                ltac:(intros g0; destruct (next_double_range g0)
                        as (u & ? & ? & ?); eauto))).
    intros x (u & -> & Hu). simpl.
    replace (length a) with (length cdf)
      by (unfold cdf; now rewrite length_fmap, cumsum_length).
    apply (searchsorted_right_in_range cdf c u); [| assumption ..].
    unfold cdf. rewrite fmap_last, Hlast. simpl. now rewrite Hdiv.
  - exists xs. now rewrite Hxs.
Qed.

(** *** The probability vectors of the generator *)

Lemma rate_ok_fin r :
  rate_ok r = true -> exists q, r = Fin q /\ (0 <= q)%Q /\ (q <= 1)%Q.
Proof.
  unfold rate_ok. destruct r as [|s|q]; simpl; try discriminate.
  - destruct s; discriminate.
  - intros [H0 H1]%andb_true_iff. apply Qle_bool_iff in H0, H1. eauto.
Qed.

Lemma check_p_rate r :
  rate_ok r = true -> check_p 2 [F64.sub (Fin 1) r; r] = None.
Proof.
  intros (q & -> & H0 & H1)%rate_ok_fin.
  unfold check_p, atol.
  cbn [length Nat.eqb negb kahan_sum kahan_loop F64.sub F64.add F64.neg
       F64.isnan existsb F64.ltb F64.abs orb].
  assert (Qle_bool 0 (1 + - q) = true) as -> by (apply Qle_bool_iff; lra).
  assert (Qle_bool 0 q = true) as -> by (apply Qle_bool_iff; lra).
  cbn [negb orb].
  match goal with |- context [Qle_bool ?a ?b] =>
    assert (Qle_bool a b = true) as ->; [| reflexivity] end.
  apply Qle_bool_iff.
  match goal with |- (Qabs ?x <= _)%Q =>
    assert (x == 0)%Q as -> by ring end.
  unfold Qle; simpl; lia.
Qed.

Lemma check_p_rate_bad r :
  rate_ok r = false ->
  exists msg, check_p 2 [F64.sub (Fin 1) r; r] = Some (ValueError msg).
Proof.
  unfold rate_ok, check_p. destruct r as [|s|q].
  - simpl; eauto.
  - destruct s; simpl; eauto.
  - intros H.
    cbn [length Nat.eqb negb kahan_sum kahan_loop F64.sub F64.add F64.neg
         F64.isnan existsb F64.ltb F64.abs orb F64.leb andb] in *.
    destruct (Qle_bool 0 (1 + - q)) eqn:E1; cbn [negb orb]; [| eauto].
    destruct (Qle_bool 0 q) eqn:E0; cbn [negb orb]; [| eauto].
    apply Qle_bool_iff in E1.
    assert (Qle_bool q 1 = true) as E by (apply Qle_bool_iff; lra).
    rewrite E in H. discriminate.
Qed.

Lemma cdf_closed_rate r :
  rate_ok r = true -> cdf_closed [F64.sub (Fin 1) r; r].
Proof.
  intros (q & -> & H0 & H1)%rate_ok_fin.
  unfold cdf_closed.
  cbn [cumsum cumsum_from F64.sub F64.add F64.neg last].
  eexists _, _. split; [reflexivity |]. cbn [F64.div].
  assert (Qeq_bool (1 + - q + q) 0 = false) as ->.
  { destruct (Qeq_bool (1 + - q + q) 0) eqn:E; [| reflexivity].
    apply Qeq_bool_iff in E. lra. }
  split; [reflexivity |].
  assert ((1 + - q + q) / (1 + - q + q) == 1)%Q as -> by (field; lra).
  apply Qle_refl.
Qed.

Lemma check_p_gender : check_p 2 p_gender = None.
Proof. reflexivity. Qed.

Lemma check_p_race : check_p 5 p_race = None.
Proof. reflexivity. Qed.

Lemma cdf_closed_gender : cdf_closed p_gender.
Proof.
  eexists _, _. split; [reflexivity |]. split; [reflexivity |].
  unfold Qle; simpl; lia.
Qed.

Lemma cdf_closed_race : cdf_closed p_race.
Proof.
  eexists _, _. split; [reflexivity |]. split; [reflexivity |].
  unfold Qle; simpl; lia.
Qed.

(** *** The store: a fresh generator object and its updates *)

Lemma lookup_fresh (pre : list (state BG)) g :
  (pre ++ [g]) !! length pre = Some g.
Proof. now apply list_lookup_middle. Qed.

Lemma insert_fresh (pre : list (state BG)) g g' :
  <[length pre := g']> (pre ++ [g]) = pre ++ [g'].
Proof.
  rewrite insert_app_r_alt by lia. now rewrite Nat.sub_diag.
Qed.

Lemma bind_on_fresh {A C} (pre : list (state BG)) g
    (f : state BG -> outcome A * state BG) (k : A -> M (state BG) C) :
  bind (on_bitgen (length pre) f) k (pre ++ [g]) =
  match f g with
  | (Ok a, g') => k a (pre ++ [g'])
  | (Raise e, g') => (Raise e, pre ++ [g'])
  end.
Proof.
  unfold bind, on_bitgen. rewrite lookup_fresh.
  destruct (f g) as [[a|e] g']; now rewrite insert_fresh.
Qed.

Lemma range_length n : length (range n) = Z.to_nat n.
Proof. unfold range. now rewrite length_fmap, length_seq. Qed.

Lemma normal_impl_inv loc scale size g xs g' :
  normal_impl loc scale size g = (Ok xs, g') ->
  0 <= size /\ fill (random_normal loc scale) (Z.to_nat size) g = (xs, g').
Proof.
  unfold normal_impl. destruct (F64.ltb scale (Fin 0)); [discriminate |].
  destruct (size <? 0) eqn:Hs; [discriminate |]. apply Z.ltb_ge in Hs.
  destruct (fill _ _ g) as [xs0 g0]. intros [= <- <-]. auto.
Qed.

Lemma normal_impl_ok size g :
  0 <= size ->
  normal_impl (F64.of_Z 65) (F64.of_Z 15) size g =
  (Ok (fill (random_normal (F64.of_Z 65) (F64.of_Z 15)) (Z.to_nat size) g).1,
   (fill (random_normal (F64.of_Z 65) (F64.of_Z 15)) (Z.to_nat size) g).2).
Proof.
  intros Hs. unfold normal_impl.
  replace (F64.ltb (F64.of_Z 15) (Fin 0)) with false by reflexivity.
  apply Z.ltb_ge in Hs. rewrite Hs.
  destruct (fill _ _ g). reflexivity.
Qed.

(** *** What [sampled] says about the arrays *)

Lemma sampled_lengths n rr sr mr g0 d g6 :
  sampled n rr sr mr g0 d g6 ->
  0 <= n
  /\ length (x_of d) = Z.to_nat n
  /\ length (gender_of d) = Z.to_nat n
  /\ length (race_of d) = Z.to_nat n
  /\ length (readmission_of d) = Z.to_nat n
  /\ length (sepsis_of d) = Z.to_nat n
  /\ length (mortality_of d) = Z.to_nat n.
Proof.
  intros (g1 & g2 & g3 & g4 & g5 & Hx & Hg & Hr & Hre & Hse & Hmo).
  apply normal_impl_inv in Hx as [Hn Hx].
  apply choice_impl_inv in Hg as (_ & _ & _ & Hg & _).
  apply choice_impl_inv in Hr as (_ & _ & _ & Hr & _).
  apply choice_impl_inv in Hre as (_ & _ & _ & Hre & _).
  apply choice_impl_inv in Hse as (_ & _ & _ & Hse & _).
  apply choice_impl_inv in Hmo as (_ & _ & _ & Hmo & _).
  pose proof (fill_length (random_normal (F64.of_Z 65) (F64.of_Z 15))
                (Z.to_nat n) g0) as Hl.
  rewrite Hx in Hl. simpl in Hl. auto 10.
Qed.

Lemma sampled_functional n rr sr mr g0 d g6 d' g6' :
  sampled n rr sr mr g0 d g6 -> sampled n rr sr mr g0 d' g6' ->
  d = d' /\ g6 = g6'.
Proof.
  intros (g1 & g2 & g3 & g4 & g5 & Hx & Hg & Hr & Hre & Hse & Hmo)
         (h1 & h2 & h3 & h4 & h5 & Hx' & Hg' & Hr' & Hre' & Hse' & Hmo').
  destruct d, d'. simpl in *.
  rewrite Hx in Hx'. injection Hx' as <- <-.
  rewrite Hg in Hg'. injection Hg' as <- <-.
  rewrite Hr in Hr'. injection Hr' as <- <-.
  rewrite Hre in Hre'. injection Hre' as <- <-.
  rewrite Hse in Hse'. injection Hse' as <- <-.
  rewrite Hmo in Hmo'. injection Hmo' as <- <-.
  auto.
Qed.

Lemma sampled_total n rr sr mr g0 :
  0 <= n -> rate_ok rr = true -> rate_ok sr = true -> rate_ok mr = true ->
  exists d g6, sampled n rr sr mr g0 d g6.
Proof.
  intros Hn Hrr Hsr Hmr.
  pose proof (normal_impl_ok n g0 Hn) as Hx.
  set (g1 := (fill (random_normal _ _) _ g0).2) in Hx.
  destruct (choice_impl_ok ["M"; "F"]%string n p_gender g1 Hn
              check_p_gender cdf_closed_gender) as [ge Hge].
  set (g2 := (fill next_double _ g1).2) in Hge.
  destruct (choice_impl_ok
              ["White"; "Black"; "Hispanic"; "Asian"; "Other"]%string
              n p_race g2 Hn check_p_race cdf_closed_race) as [ra Hra].
  set (g3 := (fill next_double _ g2).2) in Hra.
  destruct (choice_impl_ok [0; 1] n _ g3 Hn
              (check_p_rate rr Hrr) (cdf_closed_rate rr Hrr)) as [re Hre].
  set (g4 := (fill next_double _ g3).2) in Hre.
  destruct (choice_impl_ok [0; 1] n _ g4 Hn
              (check_p_rate sr Hsr) (cdf_closed_rate sr Hsr)) as [se Hse].
  set (g5 := (fill next_double _ g4).2) in Hse.
  destruct (choice_impl_ok [0; 1] n _ g5 Hn
              (check_p_rate mr Hmr) (cdf_closed_rate mr Hmr)) as [mo Hmo].
  eexists (mkDraws _ ge ra re se mo), _.
  exists g1, g2, g3, g4, g5. simpl.
  split; [exact Hx |]. split; [exact Hge |]. split; [exact Hra |].
  split; [exact Hre |]. split; [exact Hse | exact Hmo].
Qed.

(** *** The generator as a whole *)

Lemma bind_alloc {C} (g : state BG) (k : ref -> M (state BG) C) st :
  bind (alloc g) k st = k (length st) (st ++ [g]).
Proof. reflexivity. Qed.

Lemma pd_DataFrame_ehr n d st :
  length (x_of d) = Z.to_nat n ->
  length (gender_of d) = Z.to_nat n ->
  length (race_of d) = Z.to_nat n ->
  length (readmission_of d) = Z.to_nat n ->
  length (sepsis_of d) = Z.to_nat n ->
  length (mortality_of d) = Z.to_nat n ->
  pd_DataFrame (ehr_dict n d) st = (Ok (frame_of n d), st).
Proof.
  intros Hx Hg Hr Hre Hse Hmo. unfold pd_DataFrame, ehr_dict, frame_of.
  cbn [forallb snd]. rewrite !length_fmap, range_length.
  rewrite Hx, Hg, Hr, Hre, Hse, Hmo, Nat.eqb_refl. reflexivity.
Qed.

Lemma pd_DataFrame_ehr_inv n d st df st' :
  pd_DataFrame (ehr_dict n d) st = (Ok df, st') ->
  df = frame_of n d /\ st' = st.
Proof.
  unfold pd_DataFrame, ehr_dict, frame_of.
  destruct (forallb _ _); [| discriminate].
  rewrite !length_fmap, range_length. unfold ret. intros [= <- <-]. auto.
Qed.

Ltac step_method :=
  rewrite bind_on_fresh;
  match goal with
  | |- context [match ?f ?g with _ => _ end] =>
      let o := fresh "o" in
      let g' := fresh "g" in
      let E := fresh "E" in
      destruct (f g) as [[o|o] g'] eqn:E
  end.

Lemma generate_inv n seed rr sr mr st df st' :
  generate_synthetic_ehr BG n seed rr sr mr st = (Ok df, st') ->
  0 <= seed
  /\ exists d g6,
       sampled n rr sr mr (seed_state BG seed) d g6
       /\ df = frame_of n d /\ st' = st ++ [g6].
Proof.
  unfold generate_synthetic_ehr, default_rng.
  destruct (seed <? 0) eqn:Hseed; [discriminate |].
  apply Z.ltb_ge in Hseed. rewrite bind_alloc.
  unfold Generator_normal, Generator_choice.
  step_method; [| discriminate].
  step_method; [| discriminate].
  step_method; [| discriminate].
  step_method; [| discriminate].
  step_method; [| discriminate].
  step_method; [| discriminate].
  intros Hdf.
  apply (pd_DataFrame_ehr_inv n (mkDraws o o0 o1 o2 o3 o4)) in Hdf
    as [-> ->].
  split; [assumption |].
  exists (mkDraws o o0 o1 o2 o3 o4), g4. split; [| auto].
  exists g, g0, g1, g2, g3. simpl. auto 10.
Qed.

Lemma generate_intro n seed rr sr mr st d g6 :
  0 <= seed -> sampled n rr sr mr (seed_state BG seed) d g6 ->
  generate_synthetic_ehr BG n seed rr sr mr st
  = (Ok (frame_of n d), st ++ [g6]).
Proof.
  intros Hseed Hs.
  pose proof (sampled_lengths _ _ _ _ _ _ _ Hs)
    as (Hn & Hx & Hg & Hr & Hre & Hse & Hmo).
  destruct Hs as (g1 & g2 & g3 & g4 & g5 & Ex & Eg & Er & Ere & Ese & Emo).
  unfold generate_synthetic_ehr, default_rng.
  apply Z.ltb_ge in Hseed. rewrite Hseed, bind_alloc.
  unfold Generator_normal, Generator_choice.
  rewrite bind_on_fresh, Ex, bind_on_fresh, Eg, bind_on_fresh, Er,
    bind_on_fresh, Ere, bind_on_fresh, Ese, bind_on_fresh, Emo.
  now apply (pd_DataFrame_ehr n d).
Qed.

(** With a non-negative seed, a non-negative size and three
    probabilities the generator returns a frame. *)
Lemma generate_total n seed rr sr mr st :
  0 <= seed -> 0 <= n ->
  rate_ok rr = true -> rate_ok sr = true -> rate_ok mr = true ->
  exists d g6,
    sampled n rr sr mr (seed_state BG seed) d g6
    /\ generate_synthetic_ehr BG n seed rr sr mr st
       = (Ok (frame_of n d), st ++ [g6]).
Proof.
  intros Hseed Hn Hrr Hsr Hmr.
  destruct (sampled_total n rr sr mr (seed_state BG seed) Hn Hrr Hsr Hmr)
    as (d & g6 & Hs).
  exists d, g6. split; [assumption |]. now apply generate_intro.
Qed.

(** *** The store does not matter: a run only touches its own generator *)

Lemma bind_on_fresh_nil {A C} g
    (f : state BG -> outcome A * state BG) (k : A -> M (state BG) C) :
  bind (on_bitgen 0%nat f) k [g] =
  match f g with
  | (Ok a, g') => k a [g']
  | (Raise e, g') => (Raise e, [g'])
  end.
Proof. exact (bind_on_fresh [] g f k). Qed.

Lemma bind_raise {A C} (e : exn) (k : A -> M (state BG) C) st :
  bind (raise e) k st = (Raise e, st).
Proof. reflexivity. Qed.

Ltac step_both :=
  rewrite bind_on_fresh, bind_on_fresh_nil;
  match goal with
  | |- context [match ?f ?g with _ => _ end] =>
      destruct (f g) as [[?|?] ?]
  end.

Lemma generate_store n seed rr sr mr st :
  generate_synthetic_ehr BG n seed rr sr mr st =
  let (o, tail) := generate_synthetic_ehr BG n seed rr sr mr [] in
  (o, st ++ tail).
Proof.
  unfold generate_synthetic_ehr, default_rng.
  destruct (seed <? 0).
  - rewrite !bind_raise. now rewrite app_nil_r.
  - rewrite !bind_alloc. unfold Generator_normal, Generator_choice.
    cbn [length app].
    step_both; [| reflexivity].
    step_both; [| reflexivity].
    step_both; [| reflexivity].
    step_both; [| reflexivity].
    step_both; [| reflexivity].
    step_both; [| reflexivity].
    unfold pd_DataFrame. cbn [forallb snd].
    now destruct (_ && _).
Qed.

(** *** When the generator raises *)

Lemma normal_impl_negative loc scale size g :
  size < 0 ->
  exists msg, normal_impl loc scale size g = (Raise (ValueError msg), g).
Proof.
  intros Hs%Z.ltb_lt. unfold normal_impl, negative_dimensions.
  rewrite Hs. destruct (F64.ltb scale (Fin 0)); eauto.
Qed.

Lemma choice_rate_reject n r g :
  rate_ok r = false ->
  exists msg,
    choice_impl [0; 1] n [F64.sub (Fin 1) r; r] g = (Raise (ValueError msg), g).
Proof.
  intros [msg Hc]%check_p_rate_bad. exists msg.
  now apply choice_impl_reject.
Qed.

Lemma generate_raises n seed rr sr mr st :
  seed < 0 \/ n < 0
  \/ rate_ok rr = false \/ rate_ok sr = false \/ rate_ok mr = false ->
  is_value_error (generate_synthetic_ehr BG n seed rr sr mr st).1 = true.
Proof.
  intros Hbad. unfold generate_synthetic_ehr, default_rng.
  destruct (seed <? 0) eqn:Hseed; [reflexivity |].
  apply Z.ltb_ge in Hseed. rewrite bind_alloc.
  unfold Generator_normal, Generator_choice.
  destruct (Z.lt_ge_cases n 0) as [Hn|Hn].
  { destruct (normal_impl_negative (F64.of_Z 65) (F64.of_Z 15) n
                (seed_state BG seed) Hn) as [msg E].
    now rewrite bind_on_fresh, E. }
  rewrite bind_on_fresh, normal_impl_ok by assumption.
  rewrite bind_on_fresh.
  destruct (choice_impl_ok ["M"; "F"]%string n p_gender
              (fill (random_normal (F64.of_Z 65) (F64.of_Z 15))
                 (Z.to_nat n) (seed_state BG seed)).2
              Hn check_p_gender cdf_closed_gender) as [ge ->].
  rewrite bind_on_fresh.
  match goal with |- context [choice_impl _ n p_race ?g] =>
    destruct (choice_impl_ok
                ["White"; "Black"; "Hispanic"; "Asian"; "Other"]%string
                n p_race g Hn check_p_race cdf_closed_race) as [ra ->] end.
  rewrite bind_on_fresh.
  destruct (rate_ok rr) eqn:Hrr.
  2:{ match goal with |- context [choice_impl _ n _ ?g] =>
        destruct (choice_rate_reject n rr g Hrr) as [msg ->] end.
      reflexivity. }
  match goal with |- context [choice_impl _ n _ ?g] =>
    destruct (choice_impl_ok [0; 1] n _ g Hn
                (check_p_rate rr Hrr) (cdf_closed_rate rr Hrr)) as [re ->] end.
  rewrite bind_on_fresh.
  destruct (rate_ok sr) eqn:Hsr.
  2:{ match goal with |- context [choice_impl _ n _ ?g] =>
        destruct (choice_rate_reject n sr g Hsr) as [msg ->] end.
      reflexivity. }
  match goal with |- context [choice_impl _ n _ ?g] =>
    destruct (choice_impl_ok [0; 1] n _ g Hn
                (check_p_rate sr Hsr) (cdf_closed_rate sr Hsr)) as [se ->] end.
  rewrite bind_on_fresh.
  destruct (rate_ok mr) eqn:Hmr.
  2:{ match goal with |- context [choice_impl _ n _ ?g] =>
        destruct (choice_rate_reject n mr g Hmr) as [msg ->] end.
      reflexivity. }
  exfalso. destruct Hbad as [?|[?|[?|[?|?]]]]; try lia; discriminate.
Qed.

(** *** Reading a frame *)

Lemma short_from_spec k a i :
  short_from k a = true -> a <= i < a + Z.of_nat k ->
  (String.length (str i) <= 6)%nat.
Proof.
  revert a. induction k as [|k IH]; intros a Hs Hi; [lia |].
  cbn [short_from] in Hs. apply andb_true_iff in Hs as [H0 Hs].
  destruct (decide (i = a)) as [->|Hne].
  - now apply Nat.leb_le.
  - apply (IH (a + 1)); [assumption | lia].
Qed.

Lemma str_short i : 0 <= i < 10 ^ 6 -> (String.length (str i) <= 6)%nat.
Proof.
  apply (short_from_spec (Z.to_nat (10 ^ 6)) 0).
  vm_compute. reflexivity.
Qed.

Lemma row_of_some d i k :
  length (x_of d) = k -> length (gender_of d) = k ->
  length (race_of d) = k -> length (readmission_of d) = k ->
  length (sepsis_of d) = k -> length (mortality_of d) = k ->
  (i < k)%nat -> Forall is_Some (row_of d i).
Proof.
  intros Hx Hg Hr Hre Hse Hmo Hi. unfold row_of.
  destruct (lookup_lt_is_Some_2 (x_of d) i ltac:(lia)) as [? ->].
  destruct (lookup_lt_is_Some_2 (gender_of d) i ltac:(lia)) as [? ->].
  destruct (lookup_lt_is_Some_2 (race_of d) i ltac:(lia)) as [? ->].
  destruct (lookup_lt_is_Some_2 (readmission_of d) i ltac:(lia)) as [? ->].
  destruct (lookup_lt_is_Some_2 (sepsis_of d) i ltac:(lia)) as [? ->].
  destruct (lookup_lt_is_Some_2 (mortality_of d) i ltac:(lia)) as [? ->].
  repeat constructor; simpl; eauto.
Qed.

Lemma iloc_frame_of n d i :
  (i < Z.to_nat n)%nat -> iloc (frame_of n d) i = row_of d i.
Proof.
  intros Hi. unfold iloc, frame_of, ehr_dict, row_of.
  cbn [cols fmap list_fmap snd].
  rewrite !list_lookup_fmap, range_lookup by assumption. reflexivity.
Qed.

(** ** The properties of the specification *)

(** C1 (as amended).  For every [n >= 1], every non-negative seed and every
    three rates in [[0, 1]], the generator returns a frame with exactly [n]
    rows: its index has length [n], each column has [n] cells, and row [i]
    is made of the [i]-th id and the [i]-th element of each drawn array, in
    generation order. *)
Theorem C1_row_count n seed rr sr mr st :
  1 <= n -> 0 <= seed ->
  rate_ok rr = true -> rate_ok sr = true -> rate_ok mr = true ->
  exists df d g6,
    generate_synthetic_ehr BG n seed rr sr mr st = (Ok df, st ++ [g6])
    /\ sampled n rr sr mr (seed_state BG seed) d g6
    /\ index_len df = Z.to_nat n
    /\ Forall (fun kc => length kc.2 = Z.to_nat n) (cols df)
    /\ forall i, (i < Z.to_nat n)%nat ->
         iloc df i = row_of d i /\ Forall is_Some (iloc df i).
Proof.
  intros Hn Hseed Hrr Hsr Hmr.
  destruct (generate_total n seed rr sr mr st) as (d & g6 & Hs & E);
    try assumption; [lia |].
  pose proof (sampled_lengths _ _ _ _ _ _ _ Hs)
    as (_ & Hx & Hg & Hr & Hre & Hse & Hmo).
  exists (frame_of n d), d, g6.
  split; [assumption |]. split; [assumption |]. split; [reflexivity |].
  split.
  - unfold frame_of, ehr_dict. cbn [cols].
    repeat constructor; cbn [snd];
      rewrite ?length_fmap, ?range_length; assumption || reflexivity.
  - intros i Hi. rewrite iloc_frame_of by assumption.
    split; [reflexivity |]. now apply (row_of_some d i (Z.to_nat n)).
Qed.

(** C2.  Two invocations with the same arguments give the same outcome,
    whatever the store each one starts from: every draw comes from the
    generator object the call itself creates from its seed.  In particular
    a second invocation run after the first one repeats its outcome. *)
Theorem C2_same_arguments_same_output n seed rr sr mr st1 st2 :
  (generate_synthetic_ehr BG n seed rr sr mr st1).1
  = (generate_synthetic_ehr BG n seed rr sr mr st2).1
  /\ (generate_synthetic_ehr BG n seed rr sr mr
        (generate_synthetic_ehr BG n seed rr sr mr st1).2).1
     = (generate_synthetic_ehr BG n seed rr sr mr st1).1.
Proof.
  assert (forall st, (generate_synthetic_ehr BG n seed rr sr mr st).1
                     = (generate_synthetic_ehr BG n seed rr sr mr []).1) as H.
  { intros st. rewrite (generate_store n seed rr sr mr st).
    now destruct (generate_synthetic_ehr BG n seed rr sr mr []). }
  split.
  - now rewrite (H st1), (H st2).
  - now rewrite H, (H st1).
Qed.

(** C3.  In every returned frame the patient id of row [i] is ["P"]
    followed by [i] zero-padded to six digits: its digits spell [i], and
    there are exactly six of them below one million.  The ids of the frame
    are pairwise distinct. *)
Theorem C3_patient_ids n seed rr sr mr st df st' :
  generate_synthetic_ehr BG n seed rr sr mr st = (Ok df, st') ->
  (forall i, 0 <= i < n ->
     cell_at df "patient_id" (Z.to_nat i)
     = Some (CStr ("P" +:+ zfill 6 (str i)))
     /\ id_number ("P" +:+ zfill 6 (str i)) = Some i
     /\ (i < 10 ^ 6 -> String.length (zfill 6 (str i)) = 6%nat))
  /\ exists ids,
       column df "patient_id" = Some (CStr <$> ids)
       /\ length ids = Z.to_nat n /\ NoDup ids.
Proof.
  intros (_ & d & g6 & _ & -> & _)%generate_inv. split.
  - intros i Hi. split; [| split].
    + unfold cell_at, column, frame_of, ehr_dict. cbn.
      rewrite !list_lookup_fmap, range_lookup by lia. cbn.
      now rewrite Z2Nat.id by lia.
    + apply (id_number_patient_id i). lia.
    + intros Hlt.
      pose proof (patient_id_length i ltac:(lia)) as Hl.
      pose proof (str_short i ltac:(lia)) as Hs.
      unfold patient_id_of in Hl. rewrite append_cons, append_nil in Hl.
      cbn [String.length] in Hl. lia.
  - exists (patient_id_of <$> range n). split; [reflexivity |].
    split; [now rewrite length_fmap, range_length | apply patient_ids_NoDup].
Qed.

(** C4.  In every returned frame every row has an integer age between 18
    and 100. *)
Theorem C4_age_range n seed rr sr mr st df st' :
  generate_synthetic_ehr BG n seed rr sr mr st = (Ok df, st') ->
  forall i, (i < index_len df)%nat ->
    exists age, cell_at df "age" i = Some (CInt age) /\ 18 <= age <= 100.
Proof.
  intros (_ & d & g6 & Hs & -> & _)%generate_inv i Hi.
  pose proof (sampled_lengths _ _ _ _ _ _ _ Hs) as (_ & Hx & _).
  destruct Hs as (g1 & _ & _ & _ & _ & Ex & _).
  apply normal_impl_inv in Ex as [_ Ex].
  pose proof (fill_Forall (fun x => exists q, x = Fin q)
                (random_normal (F64.of_Z 65) (F64.of_Z 15)) (Z.to_nat n)
                (seed_state BG seed)
                (fun g0 => random_normal_fin (inject_Z 65) (inject_Z 15) g0))
    as Hfin.
  rewrite Ex in Hfin. cbn [fst] in Hfin.
  cbn [index_len frame_of] in Hi.
  destruct (lookup_lt_is_Some_2 (x_of d) i ltac:(lia)) as [x Hxi].
  destruct (proj1 (Forall_lookup _ _) Hfin i x Hxi) as [q ->].
  exists (astype_int (clip (F64.of_Z 18) (F64.of_Z 100) (Fin q))).
  split; [| apply age_of_draw_range].
  unfold cell_at, column, frame_of, ehr_dict. cbn.
  now rewrite !list_lookup_fmap, Hxi.
Qed.

(** C5.  Every returned frame has exactly the seven columns patient_id,
    age, gender, race, readmission, sepsis, mortality, in that order. *)
Theorem C5_columns n seed rr sr mr st df st' :
  generate_synthetic_ehr BG n seed rr sr mr st = (Ok df, st') ->
  column_names df
  = ["patient_id"; "age"; "gender"; "race";
     "readmission"; "sepsis"; "mortality"].
Proof.
  intros (_ & d & g6 & _ & -> & _)%generate_inv. reflexivity.
Qed.

(** C6 (as amended).  An input with a negative [n], or with a rate that is
    not in [[0, 1]] (a NaN included), makes the generator raise a
    [ValueError] instead of returning a frame, whatever the seed. *)
Theorem C6_invalid_input_raises n seed rr sr mr st :
  n < 0 \/ rate_ok rr = false \/ rate_ok sr = false \/ rate_ok mr = false ->
  is_value_error (generate_synthetic_ehr BG n seed rr sr mr st).1 = true.
Proof. intros H. apply generate_raises. tauto. Qed.

Lemma sampled_differ_in_one n f r rr sr mr rr' sr' mr' g0 d g6 d' g6' :
  set_rate f r (rr, sr, mr) = (rr', sr', mr') ->
  sampled n rr sr mr g0 d g6 -> sampled n rr' sr' mr' g0 d' g6' ->
  x_of d = x_of d' /\ gender_of d = gender_of d' /\ race_of d = race_of d'
  /\ (f <> Readmission -> readmission_of d = readmission_of d')
  /\ (f <> Sepsis -> sepsis_of d = sepsis_of d')
  /\ (f <> Mortality -> mortality_of d = mortality_of d').
Proof.
  intros Hset
    (g1 & g2 & g3 & g4 & g5 & Hx & Hg & Hr & Hre & Hse & Hmo)
    (h1 & h2 & h3 & h4 & h5 & Hx' & Hg' & Hr' & Hre' & Hse' & Hmo').
  rewrite Hx in Hx'. injection Hx' as Ex <-.
  rewrite Hg in Hg'. injection Hg' as Eg <-.
  rewrite Hr in Hr'. injection Hr' as Er <-.
  pose proof (choice_impl_inv _ _ _ _ _ _ Hre) as (_ & _ & E4 & _).
  pose proof (choice_impl_inv _ _ _ _ _ _ Hre') as (_ & _ & E4' & _).
  pose proof (choice_impl_inv _ _ _ _ _ _ Hse) as (_ & _ & E5 & _).
  pose proof (choice_impl_inv _ _ _ _ _ _ Hse') as (_ & _ & E5' & _).
  assert (h4 = g4) as -> by congruence.
  assert (h5 = g5) as -> by congruence.
  repeat split; try assumption; intros Hf;
    destruct f; try congruence; cbn in Hset;
    injection Hset as <- <- <-; congruence.
Qed.

Lemma lookup_fmap_in {A} (f : A -> cell) (P : A -> Prop) (l : list A) i :
  Forall P l -> (i < length l)%nat ->
  exists a, (f <$> l) !! i = Some (f a) /\ P a.
Proof.
  intros Hall Hi. destruct (lookup_lt_is_Some_2 l i Hi) as [a Ha].
  exists a. rewrite list_lookup_fmap, Ha. split; [reflexivity |].
  exact (proj1 (Forall_lookup _ _) Hall i a Ha).
Qed.

(** C8.  In every returned frame every row has a gender among M and F, a
    race among the five labels, and three flags that are 0 or 1. *)
Theorem C8_categories n seed rr sr mr st df st' :
  generate_synthetic_ehr BG n seed rr sr mr st = (Ok df, st') ->
  forall i, (i < index_len df)%nat ->
    (exists s, cell_at df "gender" i = Some (CStr s)
               /\ s ∈ ["M"; "F"])
    /\ (exists s, cell_at df "race" i = Some (CStr s)
                  /\ s ∈ ["White"; "Black"; "Hispanic"; "Asian"; "Other"])
    /\ (exists b, cell_at df "readmission" i = Some (CInt b) /\ b ∈ [0; 1])
    /\ (exists b, cell_at df "sepsis" i = Some (CInt b) /\ b ∈ [0; 1])
    /\ (exists b, cell_at df "mortality" i = Some (CInt b) /\ b ∈ [0; 1]).
Proof.
  intros (_ & d & g6 & Hs & -> & _)%generate_inv i Hi.
  pose proof (sampled_lengths _ _ _ _ _ _ _ Hs)
    as (_ & _ & Lg & Lr & Lre & Lse & Lmo).
  destruct Hs as (g1 & g2 & g3 & g4 & g5 & _ & Hg & Hr & Hre & Hse & Hmo).
  apply choice_impl_inv in Hg as (_ & _ & _ & _ & Hg).
  apply choice_impl_inv in Hr as (_ & _ & _ & _ & Hr).
  apply choice_impl_inv in Hre as (_ & _ & _ & _ & Hre).
  apply choice_impl_inv in Hse as (_ & _ & _ & _ & Hse).
  apply choice_impl_inv in Hmo as (_ & _ & _ & _ & Hmo).
  cbn [index_len frame_of] in Hi.
  unfold cell_at, column, frame_of, ehr_dict. cbn.
  repeat split; apply lookup_fmap_in; assumption || lia.
Qed.

(** C10 (as amended).  With [n = 0], a non-negative seed and three rates in
    [[0, 1]] the generator raises nothing and returns the frame with no row
    and the seven columns. *)
Theorem C10_no_patient seed rr sr mr st :
  0 <= seed ->
  rate_ok rr = true -> rate_ok sr = true -> rate_ok mr = true ->
  exists g6,
    generate_synthetic_ehr BG 0 seed rr sr mr st = (Ok empty_frame, st ++ [g6])
    /\ index_len empty_frame = 0%nat
    /\ column_names empty_frame
       = ["patient_id"; "age"; "gender"; "race";
          "readmission"; "sepsis"; "mortality"].
Proof.
  intros Hseed Hrr Hsr Hmr.
  destruct (generate_total 0 seed rr sr mr st) as (d & g6 & Hs & E);
    try assumption; [lia |].
  pose proof (sampled_lengths _ _ _ _ _ _ _ Hs)
    as (_ & Hx & Hg & Hr & Hre & Hse & Hmo).
  exists g6. split; [| split; reflexivity].
  rewrite E. do 2 f_equal.
  destruct d as [x ge ra re se mo]. cbn in *.
  apply nil_length_inv in Hx, Hg, Hr, Hre, Hse, Hmo. now subst.
Qed.

End Facts.

(** ** Which draws each column reads *)

Section Independence.

Variable BG : BitGenerator.
Implicit Types g h : state BG.
Implicit Types st : store (state BG).

Lemma fill_app {A} (draw : state BG -> A * state BG) (a b : nat) g :
  fill draw (a + b) g
  = ((fill draw a g).1 ++ (fill draw b (fill draw a g).2).1,
     (fill draw b (fill draw a g).2).2).
Proof.
  revert g. induction a as [|a IH]; intros g.
  - cbn. now destruct (fill draw b g).
  - cbn [Nat.add fill]. destruct (draw g) as [x g1]. rewrite IH.
    destruct (fill draw a g1) as [xs g2]. reflexivity.
Qed.

Lemma fill_slice {A} (draw : state BG -> A * state BG) (j m k : nat) g :
  (j < m)%nat ->
  take k (drop (j * k) (fill draw (m * k) g).1)
  = (fill draw k (state_after_runs draw j k g)).1.
Proof.
  revert m g. induction j as [|j IH]; intros m g Hjm.
  - destruct m as [|m]; [lia |]. cbn [state_after_runs].
    replace (S m * k)%nat with (k + m * k)%nat by lia.
    replace (0 * k)%nat with 0%nat by lia.
    rewrite fill_app, drop_0. cbn [fst].
    rewrite take_app_length'; [reflexivity | symmetry; apply fill_length].
  - destruct m as [|m]; [lia |]. cbn [state_after_runs].
    replace (S m * k)%nat with (k + m * k)%nat by lia.
    replace (S j * k)%nat with (k + j * k)%nat by lia.
    rewrite fill_app. cbn [fst].
    rewrite drop_app_add'; [| symmetry; apply fill_length].
    apply IH. lia.
Qed.

Lemma take_idx_values {A} (a : list A) (dflt : A) idx xs :
  take_idx a idx = Ok xs -> xs = (fun i => default dflt (a !! i)) <$> idx.
Proof.
  revert xs. induction idx as [|i idx IH]; intros xs; simpl.
  - now intros [= <-].
  - destruct (a !! i) as [x|]; [| discriminate].
    destruct (take_idx a idx) as [ys|]; [| discriminate].
    intros [= <-]. cbn. now rewrite (IH ys eq_refl).
Qed.

(** What a successful [choice] returns: for each uniform double drawn, the
    element [pick] gives. *)
Lemma choice_impl_values {A} (a : list A) (dflt : A) size p g xs g' :
  choice_impl a size p g = (Ok xs, g') ->
  xs = pick a p dflt <$> (fill next_double (Z.to_nat size) g).1.
Proof.
  unfold choice_impl, pick.
  destruct ((length a =? 0)%nat && negb (size =? 0)); [discriminate |].
  destruct (check_p (length a) p); [discriminate |].
  destruct (last (cumsum p)) as [total|]; [| discriminate].
  destruct (random_impl size g) as [[us|e] g1] eqn:Hr; [| discriminate].
  apply random_impl_inv in Hr as [_ Hf]. rewrite Hf. cbn [fst].
  intros [= Ht _]. apply (take_idx_values a dflt) in Ht.
  now rewrite <- list_fmap_compose in Ht.
Qed.

Lemma sampled_slices n seed rr sr mr d g6 :
  sampled n rr sr mr (seed_state BG seed) d g6 ->
  gender_of d = pick ["M"; "F"] p_gender "M" <$> uniform_slice BG n seed 0
  /\ race_of d
     = pick ["White"; "Black"; "Hispanic"; "Asian"; "Other"] p_race "White"
         <$> uniform_slice BG n seed 1
  /\ readmission_of d = flag_of_uniform rr <$> uniform_slice BG n seed 2
  /\ sepsis_of d = flag_of_uniform sr <$> uniform_slice BG n seed 3
  /\ mortality_of d = flag_of_uniform mr <$> uniform_slice BG n seed 4.
Proof.
  intros (g1 & g2 & g3 & g4 & g5 & Hx & Hg & Hr & Hre & Hse & Hmo).
  apply normal_impl_inv in Hx as [_ Hx].
  assert (g1 = after_ages BG n seed) as -> by (unfold after_ages; now rewrite Hx).
  pose proof (choice_impl_inv _ _ _ _ _ _ _ Hg) as (_ & _ & -> & _).
  pose proof (choice_impl_inv _ _ _ _ _ _ _ Hr) as (_ & _ & -> & _).
  pose proof (choice_impl_inv _ _ _ _ _ _ _ Hre) as (_ & _ & -> & _).
  pose proof (choice_impl_inv _ _ _ _ _ _ _ Hse) as (_ & _ & -> & _).
  apply (choice_impl_values _ "M"%string) in Hg.
  apply (choice_impl_values _ "White"%string) in Hr.
  apply (choice_impl_values _ 0) in Hre, Hse, Hmo.
  unfold uniform_slice, uniforms_after_ages, flag_of_uniform.
  rewrite !(fill_slice next_double _ 5) by lia.
  cbn [state_after_runs]. auto.
Qed.

End Independence.

Section IndependenceClaim.

Variable BG : BitGenerator.
Implicit Types g h : state BG.
Implicit Types st : store (state BG).

Lemma fill_state_ext {A C} (draw : state BG -> A * state BG)
    (draw' : state BG -> C * state BG) (k : nat) g :
  (forall g0, (draw g0).2 = (draw' g0).2) ->
  (fill draw k g).2 = (fill draw' k g).2.
Proof.
  intros Hd. revert g. induction k as [|k IH]; intros g; [reflexivity |].
  cbn [fill]. specialize (Hd g).
  destruct (draw g) as [x g1], (draw' g) as [y g1']. cbn in Hd. subst g1'.
  specialize (IH g1).
  destruct (fill draw k g1) as [xs g2], (fill draw' k g1) as [ys g2'].
  exact IH.
Qed.

Lemma fill_with_normal {A} (normal : state BG -> Q * state BG)
    (draw : state BG -> A * state BG) (k : nat) g :
  fill (BG := with_normal BG normal) draw k g = fill (BG := BG) draw k g.
Proof.
  revert g. induction k as [|k IH]; intros g; [reflexivity |].
  cbn [fill]. destruct (draw g) as [x g1]. now rewrite IH.
Qed.

(** The uniform doubles drawn after the ages do not depend on the values
    of the normal draws, only on where they leave the generator. *)
Lemma uniform_slice_with_normal (normal : state BG -> Q * state BG) n seed j :
  (forall g, (normal g).2 = (random_standard_normal BG g).2) ->
  uniform_slice (with_normal BG normal) n seed j = uniform_slice BG n seed j.
Proof.
  intros Hn. unfold uniform_slice, uniforms_after_ages, after_ages.
  rewrite !fill_with_normal. do 3 f_equal.
  change (@next_double (with_normal BG normal)) with (@next_double BG).
  f_equal. apply fill_state_ext. intros g0. unfold random_normal.
  specialize (Hn g0). cbn [random_standard_normal with_normal].
  destruct (normal g0), (random_standard_normal BG g0). exact Hn.
Qed.

(** C7.  Each rate influences its own column only: two returned frames
    whose arguments differ in the rate of one flag agree on every other
    column (the ids, the demographics and the two other flags).  The flags
    are drawn independently of the demographic draws and of each other:
    every flag cell is a function of the rate of its flag and of one
    uniform double of its own, taken from a run of the stream that no
    other column reads (gender reads run 0, race run 1, the flags runs 2,
    3 and 4, all after the ages), and the flags stay the same when the
    normal sampler returns other values. *)
Theorem C7_rate_moves_own_column_only
    n seed rr sr mr f r rr' sr' mr' st1 st2 df1 df2 st1' st2' :
  set_rate f r (rr, sr, mr) = (rr', sr', mr') ->
  generate_synthetic_ehr BG n seed rr sr mr st1 = (Ok df1, st1') ->
  generate_synthetic_ehr BG n seed rr' sr' mr' st2 = (Ok df2, st2') ->
  (index_len df1 = index_len df2
   /\ column_names df1 = column_names df2
   /\ forall name, name <> flag_column f ->
        column df1 name = column df2 name)
  /\ (column df1 "gender"
      = Some (CStr <$> (pick ["M"; "F"] p_gender "M"
                          <$> uniform_slice BG n seed 0))
      /\ column df1 "race"
         = Some (CStr <$>
                   (pick ["White"; "Black"; "Hispanic"; "Asian"; "Other"]
                      p_race "White" <$> uniform_slice BG n seed 1))
      /\ forall f0,
           column df1 (flag_column f0)
           = Some (CInt <$>
                     (flag_of_uniform (rate_of f0 (rr, sr, mr))
                        <$> uniform_slice BG n seed (flag_slice f0))))
  /\ (forall normal st3 df3 st3',
        (forall g, (normal g).2 = (random_standard_normal BG g).2) ->
        generate_synthetic_ehr (with_normal BG normal) n seed rr sr mr st3
        = (Ok df3, st3') ->
        forall f0, column df3 (flag_column f0) = column df1 (flag_column f0)).
Proof.
  intros Hset (_ & d & g6 & Hs & -> & _)%generate_inv
              (_ & d' & g6' & Hs' & -> & _)%generate_inv.
  pose proof (sampled_slices BG _ _ _ _ _ _ _ Hs)
    as (Sg & Sr & Sre & Sse & Smo).
  assert (forall f0,
            column (frame_of n d) (flag_column f0)
            = Some (CInt <$>
                      (flag_of_uniform (rate_of f0 (rr, sr, mr))
                         <$> uniform_slice BG n seed (flag_slice f0))))
    as Hflags.
  { intros f0. unfold column, frame_of, ehr_dict.
    destruct f0; cbn; congruence. }
  split; [| split].
  - split; [reflexivity |]. split; [reflexivity |].
    destruct (sampled_differ_in_one BG _ _ _ _ _ _ _ _ _ _ _ _ _ _ Hset Hs Hs')
      as (Ex & Eg & Er & Ere & Ese & Emo).
    intros name Hname. unfold column, frame_of, ehr_dict. cbn [cols assoc].
    rewrite Ex, Eg, Er.
    destruct f; cbn [flag_column] in Hname;
      apply String.eqb_neq in Hname; rewrite ?Hname;
      rewrite ?Ere, ?Ese, ?Emo by discriminate; reflexivity.
  - split; [| split; [| exact Hflags]];
      unfold column, frame_of, ehr_dict; cbn; congruence.
  - intros normal st3 df3 st3' Hn H3 f0.
    destruct (generate_inv (with_normal BG normal) n seed rr sr mr
                st3 df3 st3' H3) as (_ & d3 & h6 & Hs3 & -> & _).
    rewrite Hflags.
    pose proof (sampled_slices (with_normal BG normal) _ _ _ _ _ _ _ Hs3)
      as (_ & _ & Sre3 & Sse3 & Smo3).
    rewrite !uniform_slice_with_normal in * by assumption.
    unfold column, frame_of, ehr_dict. destruct f0; cbn; congruence.
Qed.

End IndependenceClaim.

(** ** The model at concrete inputs *)

Example demo_run :
  run_lcg 3 42 default_readmission_rate default_sepsis_rate
    default_mortality_rate
  = (Ok demo_frame, demo_store).
Proof. vm_compute. reflexivity. Qed.

Example demo_run' :
  run_lcg 3 42 default_readmission_rate default_sepsis_rate (Fin (1 # 2))
  = (Ok demo_frame', demo_store).
Proof. vm_compute. reflexivity. Qed.

Example demo_ids :
  column demo_frame "patient_id"
  = Some [CStr "P000000"; CStr "P000001"; CStr "P000002"].
Proof. reflexivity. Qed.

Example wide_id : patient_id_of 1234567 = "P1234567".
Proof. reflexivity. Qed.

(** C1, as stated, fails: with one patient, a negative seed raises, and so
    does a rate above one. *)
Lemma C1_counterexample :
  run_lcg 1 (-1) default_readmission_rate default_sepsis_rate
    default_mortality_rate
  = (Raise (ValueError "expected non-negative integer"), [])
  /\ (run_lcg 1 42 (Fin (3 # 2)) default_sepsis_rate
        default_mortality_rate).1
     = Raise (ValueError "probabilities are not non-negative").
Proof. split; vm_compute; reflexivity. Qed.

Lemma C1_witness :
  (1 <= 3 /\ 0 <= 42
   /\ rate_ok default_readmission_rate = true
   /\ rate_ok default_sepsis_rate = true
   /\ rate_ok default_mortality_rate = true)
  /\ exists df,
       (run_lcg 3 42 default_readmission_rate default_sepsis_rate
          default_mortality_rate).1 = Ok df
       /\ index_len df = 3%nat.
Proof.
  split; [repeat split; lia || reflexivity |].
  destruct (C1_row_count Lcg.bitgen 3 42 default_readmission_rate
              default_sepsis_rate default_mortality_rate []
              ltac:(lia) ltac:(lia) eq_refl eq_refl eq_refl)
    as (df & d & g6 & E & _ & Hlen & _).
  exists df. unfold run_lcg. rewrite E. split; [reflexivity | exact Hlen].
Defined.

Lemma C3_witness :
  run_lcg 3 42 default_readmission_rate default_sepsis_rate
    default_mortality_rate = (Ok demo_frame, demo_store)
  /\ cell_at demo_frame "patient_id" 2 = Some (CStr "P000002").
Proof.
  split; [exact demo_run |].
  exact (proj1 (proj1 (C3_patient_ids Lcg.bitgen 3 42 default_readmission_rate
           default_sepsis_rate default_mortality_rate [] demo_frame
                         demo_store demo_run) 2 ltac:(lia))).
Defined.

Lemma C4_witness :
  run_lcg 3 42 default_readmission_rate default_sepsis_rate
    default_mortality_rate = (Ok demo_frame, demo_store)
  /\ (0 < index_len demo_frame)%nat
  /\ exists age, cell_at demo_frame "age" 0 = Some (CInt age)
                 /\ 18 <= age <= 100.
Proof.
  split; [exact demo_run |]. split; [simpl; lia |].
  apply (C4_age_range Lcg.bitgen 3 42 default_readmission_rate
           default_sepsis_rate default_mortality_rate [] demo_frame demo_store
           demo_run 0%nat).
  simpl; lia.
Defined.

Lemma C5_witness :
  run_lcg 3 42 default_readmission_rate default_sepsis_rate
    default_mortality_rate = (Ok demo_frame, demo_store)
  /\ column_names demo_frame
     = ["patient_id"; "age"; "gender"; "race";
        "readmission"; "sepsis"; "mortality"].
Proof.
  split; [exact demo_run |].
  exact (C5_columns Lcg.bitgen 3 42 default_readmission_rate
           default_sepsis_rate default_mortality_rate [] demo_frame demo_store demo_run).
Defined.

(** C6, as stated, fails for [n = 0]: the generator returns the empty
    frame. *)
Lemma C6_counterexample :
  (run_lcg 0 42 default_readmission_rate default_sepsis_rate
     default_mortality_rate).1
  = Ok empty_frame.
Proof. vm_compute. reflexivity. Qed.

Lemma C6_witness :
  (-1 < 0 \/ rate_ok default_readmission_rate = false
   \/ rate_ok (Fin (3 # 2)) = false \/ rate_ok NaN = false)
  /\ is_value_error
       (run_lcg (-1) 42 default_readmission_rate (Fin (3 # 2)) NaN).1
     = true.
Proof.
  split; [left; lia |].
  apply (C6_invalid_input_raises Lcg.bitgen (-1) 42
           default_readmission_rate (Fin (3 # 2)) NaN []).
  left; lia.
Defined.

Lemma C7_witness :
  set_rate Mortality (Fin (1 # 2))
    (default_readmission_rate, default_sepsis_rate, default_mortality_rate)
  = (default_readmission_rate, default_sepsis_rate, Fin (1 # 2))
  /\ column demo_frame "sepsis" = column demo_frame' "sepsis"
  /\ column demo_frame "age" = column demo_frame' "age"
  /\ column demo_frame "mortality"
     = Some (CInt <$>
               (flag_of_uniform default_mortality_rate
                  <$> uniform_slice Lcg.bitgen 3 42 4)).
Proof.
  split; [reflexivity |].
  pose proof (C7_rate_moves_own_column_only Lcg.bitgen 3 42
                default_readmission_rate default_sepsis_rate
                default_mortality_rate Mortality (Fin (1 # 2))
                default_readmission_rate default_sepsis_rate (Fin (1 # 2))
                [] [] demo_frame demo_frame' demo_store demo_store
                eq_refl demo_run demo_run') as ((_ & _ & H) & (_ & _ & F) & _).
  split; [apply H; discriminate |].
  split; [apply H; discriminate |].
  exact (F Mortality).
Defined.

Lemma C8_witness :
  run_lcg 3 42 default_readmission_rate default_sepsis_rate
    default_mortality_rate = (Ok demo_frame, demo_store)
  /\ (1 < index_len demo_frame)%nat
  /\ exists s, cell_at demo_frame "gender" 1 = Some (CStr s)
               /\ s ∈ ["M"; "F"].
Proof.
  split; [exact demo_run |]. split; [simpl; lia |].
  apply (C8_categories Lcg.bitgen 3 42 default_readmission_rate
           default_sepsis_rate default_mortality_rate [] demo_frame demo_store
           demo_run 1%nat).
  simpl; lia.
Defined.

(** C10, as stated, fails: with no patient, a rate above one still raises,
    and so does a negative seed. *)
Lemma C10_counterexample :
  (run_lcg 0 42 default_readmission_rate default_sepsis_rate
     (Fin (3 # 2))).1
  = Raise (ValueError "probabilities are not non-negative")
  /\ (run_lcg 0 (-1) default_readmission_rate default_sepsis_rate
        default_mortality_rate).1
     = Raise (ValueError "expected non-negative integer").
Proof. split; vm_compute; reflexivity. Qed.

Lemma C10_witness :
  (0 <= 42
   /\ rate_ok default_readmission_rate = true
   /\ rate_ok default_sepsis_rate = true
   /\ rate_ok default_mortality_rate = true)
  /\ (run_lcg 0 42 default_readmission_rate default_sepsis_rate
        default_mortality_rate).1 = Ok empty_frame.
Proof.
  split; [repeat split; lia || reflexivity |].
  destruct (C10_no_patient Lcg.bitgen 42 default_readmission_rate
              default_sepsis_rate default_mortality_rate []
              ltac:(lia) eq_refl eq_refl eq_refl) as (g6 & E & _).
  unfold run_lcg. rewrite E. reflexivity.
Defined.

(** * Further properties of the generator and of its tests *)

Section MoreFacts.

Variable BG : BitGenerator.
Implicit Types g h : state BG.
Implicit Types st : store (state BG).

(** ** The domain of the generator *)

(** X1.  The generator returns a frame exactly when the seed and the size
    are non-negative and the three rates are in [[0, 1]]. *)
Theorem generate_returns_iff n seed rr sr mr st :
  (exists df st', generate_synthetic_ehr BG n seed rr sr mr st = (Ok df, st'))
  <-> 0 <= seed /\ 0 <= n
      /\ rate_ok rr = true /\ rate_ok sr = true /\ rate_ok mr = true.
Proof.
  split.
  - intros (df & st' & E).
    destruct (Z.lt_ge_cases seed 0) as [Hs|Hs];
      [pose proof (generate_raises BG n seed rr sr mr st (or_introl Hs)) as R;
       rewrite E in R; discriminate |].
    destruct (Z.lt_ge_cases n 0) as [Hn|Hn];
      [pose proof (generate_raises BG n seed rr sr mr st
                     (or_intror (or_introl Hn))) as R;
       rewrite E in R; discriminate |].
    destruct (rate_ok rr) eqn:Hrr;
      [| pose proof (generate_raises BG n seed rr sr mr st
                       (or_intror (or_intror (or_introl Hrr)))) as R;
         rewrite E in R; discriminate].
    destruct (rate_ok sr) eqn:Hsr;
      [| pose proof (generate_raises BG n seed rr sr mr st
                       (or_intror (or_intror (or_intror (or_introl Hsr)))))
           as R;
         rewrite E in R; discriminate].
    destruct (rate_ok mr) eqn:Hmr;
      [| pose proof (generate_raises BG n seed rr sr mr st
                       (or_intror (or_intror (or_intror (or_intror Hmr)))))
           as R;
         rewrite E in R; discriminate].
    auto.
  - intros (Hs & Hn & Hrr & Hsr & Hmr).
    destruct (generate_total BG n seed rr sr mr st Hs Hn Hrr Hsr Hmr)
      as (d & g6 & _ & E).
    eauto.
Qed.

Lemma choice_rate_reject_with n r g :
  rate_ok r = false ->
  exists e,
    check_p 2 [F64.sub (Fin 1) r; r] = Some e
    /\ (exists msg, e = ValueError msg)
    /\ choice_impl [0; 1] n [F64.sub (Fin 1) r; r] g = (Raise e, g).
Proof.
  intros [msg Hc]%check_p_rate_bad. exists (ValueError msg).
  split; [exact Hc |]. split; [eauto |]. now apply choice_impl_reject.
Qed.

(** Which call raises, and what: the seed check of [default_rng], the size
    check of [normal], or the check of [p] in [choice] for the first rate
    that is not a probability. *)
Lemma generate_raise_source n seed rr sr mr st :
  (seed < 0 ->
     (generate_synthetic_ehr BG n seed rr sr mr st).1
     = Raise (ValueError "expected non-negative integer"))
  /\ (0 <= seed -> n < 0 ->
        (generate_synthetic_ehr BG n seed rr sr mr st).1
        = Raise (negative_dimensions))
  /\ (0 <= seed -> 0 <= n ->
        forall r,
          r = rr /\ rate_ok rr = false
          \/ r = sr /\ rate_ok rr = true /\ rate_ok sr = false
          \/ r = mr /\ rate_ok rr = true /\ rate_ok sr = true
             /\ rate_ok mr = false ->
          exists e,
            check_p 2 [F64.sub (Fin 1) r; r] = Some e
            /\ (exists msg, e = ValueError msg)
            /\ (generate_synthetic_ehr BG n seed rr sr mr st).1 = Raise e).
Proof.
  unfold generate_synthetic_ehr, default_rng.
  split; [| split].
  - intros Hs%Z.ltb_lt. now rewrite Hs.
  - intros Hs%Z.ltb_ge Hn%Z.ltb_lt. rewrite Hs, bind_alloc.
    unfold Generator_normal. rewrite bind_on_fresh.
    unfold normal_impl. rewrite Hn.
    replace (F64.ltb (F64.of_Z 15) (Fin 0)) with false by reflexivity.
    reflexivity.
  - intros Hs%Z.ltb_ge Hn r Hr. rewrite Hs, bind_alloc.
    unfold Generator_normal, Generator_choice.
    rewrite bind_on_fresh, normal_impl_ok by assumption.
    rewrite bind_on_fresh.
    destruct (choice_impl_ok BG ["M"; "F"]%string n p_gender
                (fill (random_normal (F64.of_Z 65) (F64.of_Z 15))
                   (Z.to_nat n) (seed_state BG seed)).2
                Hn check_p_gender cdf_closed_gender) as [ge ->].
    rewrite bind_on_fresh.
    match goal with |- context [choice_impl _ n p_race ?g] =>
      destruct (choice_impl_ok BG
                  ["White"; "Black"; "Hispanic"; "Asian"; "Other"]%string
                  n p_race g Hn check_p_race cdf_closed_race) as [ra ->] end.
    rewrite bind_on_fresh.
    destruct Hr as [[-> Hrr]|[[-> [Hrr Hsr]]|[-> (Hrr & Hsr & Hmr)]]].
    + match goal with |- context [choice_impl _ n _ ?g] =>
        destruct (choice_rate_reject_with n rr g Hrr)
          as (e & Hc & He & ->) end.
      eauto.
    + match goal with |- context [choice_impl _ n _ ?g] =>
        destruct (choice_impl_ok BG [0; 1] n _ g Hn
                    (check_p_rate rr Hrr) (cdf_closed_rate rr Hrr))
          as [re ->] end.
      rewrite bind_on_fresh.
      match goal with |- context [choice_impl _ n _ ?g] =>
        destruct (choice_rate_reject_with n sr g Hsr)
          as (e & Hc & He & ->) end.
      eauto.
    + match goal with |- context [choice_impl _ n _ ?g] =>
        destruct (choice_impl_ok BG [0; 1] n _ g Hn
                    (check_p_rate rr Hrr) (cdf_closed_rate rr Hrr))
          as [re ->] end.
      rewrite bind_on_fresh.
      match goal with |- context [choice_impl _ n _ ?g] =>
        destruct (choice_impl_ok BG [0; 1] n _ g Hn
                    (check_p_rate sr Hsr) (cdf_closed_rate sr Hsr))
          as [se ->] end.
      rewrite bind_on_fresh.
      match goal with |- context [choice_impl _ n _ ?g] =>
        destruct (choice_rate_reject_with n mr g Hmr)
          as (e & Hc & He & ->) end.
      eauto.
Qed.

(** X2.  A call raises only from one of three checks, and what it raises
    is that check's [ValueError]: the seed check of [default_rng], the
    size check of [normal], or the check of [p] in [choice] for the first
    rate that is not in [[0, 1]].  Neither [take] nor [DataFrame] ever
    raises: once the six arrays are drawn, the seven columns have [n]
    cells each and [DataFrame] returns the frame. *)
Theorem generate_raises_only_value_error n seed rr sr mr st :
  (forall e st',
     generate_synthetic_ehr BG n seed rr sr mr st = (Raise e, st') ->
     (exists msg, e = ValueError msg)
     /\ (seed < 0 /\ e = ValueError "expected non-negative integer"
         \/ 0 <= seed /\ n < 0 /\ e = negative_dimensions
         \/ 0 <= seed /\ 0 <= n
            /\ exists r,
                 (r = rr /\ rate_ok rr = false
                  \/ r = sr /\ rate_ok rr = true /\ rate_ok sr = false
                  \/ r = mr /\ rate_ok rr = true /\ rate_ok sr = true
                     /\ rate_ok mr = false)
                 /\ check_p 2 [F64.sub (Fin 1) r; r] = Some e))
  /\ (forall d g6,
        sampled n rr sr mr (seed_state BG seed) d g6 ->
        Forall (fun kc => length kc.2 = Z.to_nat n) (ehr_dict n d)
        /\ forall st2,
             pd_DataFrame (BG := BG) (ehr_dict n d) st2
             = (Ok (frame_of n d), st2)).
Proof.
  split.
  - intros e st' E.
    destruct (generate_raise_source n seed rr sr mr st) as (Hseed & Hsize & Hrate).
    rewrite E in Hseed, Hsize, Hrate. cbn [fst] in Hseed, Hsize, Hrate.
    destruct (Z.lt_ge_cases seed 0) as [Hs|Hs].
    { specialize (Hseed Hs). injection Hseed as ->. split; [eauto |]. auto. }
    destruct (Z.lt_ge_cases n 0) as [Hn|Hn].
    { specialize (Hsize Hs Hn). injection Hsize as ->.
      split; [unfold negative_dimensions; eauto |]. auto. }
    specialize (Hrate Hs Hn).
    assert (forall r,
              r = rr /\ rate_ok rr = false
              \/ r = sr /\ rate_ok rr = true /\ rate_ok sr = false
              \/ r = mr /\ rate_ok rr = true /\ rate_ok sr = true
                 /\ rate_ok mr = false ->
              (exists msg, e = ValueError msg)
              /\ check_p 2 [F64.sub (Fin 1) r; r] = Some e) as Hr.
    { intros r Hr. destruct (Hrate r Hr) as (e0 & Hc & He & [= <-]). auto. }
    destruct (rate_ok rr) eqn:Hrr;
      [| destruct (Hr rr) as [He Hc]; [tauto |];
         split; [exact He |]; right; right; eauto 10].
    destruct (rate_ok sr) eqn:Hsr;
      [| destruct (Hr sr) as [He Hc]; [tauto |];
         split; [exact He |]; right; right; eauto 10].
    destruct (rate_ok mr) eqn:Hmr;
      [| destruct (Hr mr) as [He Hc]; [tauto |];
         split; [exact He |]; right; right; eauto 10].
    destruct (generate_total BG n seed rr sr mr st Hs Hn Hrr Hsr Hmr)
      as (d & g6 & _ & E2).
    congruence.
  - intros d g6 Hs.
    pose proof (sampled_lengths BG _ _ _ _ _ _ _ Hs)
      as (_ & Hx & Hg & Hr & Hre & Hse & Hmo).
    split.
    + unfold ehr_dict. repeat constructor; cbn [snd];
        rewrite ?length_fmap, ?range_length; assumption || reflexivity.
    + intros st2. now apply pd_DataFrame_ehr.
Qed.

(** ** The store *)

(** X3.  A call leaves every generator object that exists untouched and
    creates at most one: none when the seed is negative, otherwise
    exactly one, also when the call raises later. *)
Theorem generate_keeps_the_store n seed rr sr mr st :
  exists tail,
    (generate_synthetic_ehr BG n seed rr sr mr st).2 = st ++ tail
    /\ length tail = (if seed <? 0 then 0%nat else 1%nat)
    /\ forall r g, st !! r = Some g ->
         (generate_synthetic_ehr BG n seed rr sr mr st).2 !! r = Some g.
Proof.
  assert (exists tail,
            (generate_synthetic_ehr BG n seed rr sr mr st).2 = st ++ tail
            /\ length tail = (if seed <? 0 then 0%nat else 1%nat))
    as (tail & E & L).
  { unfold generate_synthetic_ehr, default_rng.
    destruct (seed <? 0).
    - exists []. rewrite bind_raise, app_nil_r. auto.
    - rewrite bind_alloc. unfold Generator_normal, Generator_choice.
      repeat (rewrite bind_on_fresh;
              match goal with
              | |- context [match ?f ?g with _ => _ end] =>
                  destruct (f g) as [[?|?] ?]
              end; [| eexists; split; reflexivity]).
      unfold pd_DataFrame. cbn [forallb snd].
      destruct (_ && _); eexists; split; reflexivity. }
  exists tail. split; [exact E |]. split; [exact L |].
  intros r g Hr. rewrite E. now apply lookup_app_l_Some.
Qed.

End MoreFacts.

Section AgeFacts.

Variable BG : BitGenerator.
Implicit Types g h : state BG.
Implicit Types st : store (state BG).

(** ** Ages *)

Lemma truncate_floor (q : Q) :
  (0 <= q)%Q -> Z.quot (Qnum q) (Z.pos (Qden q)) = Qfloor q.
Proof.
  destruct q as [num den]. unfold Qle, Qfloor. simpl. intros H.
  apply Z.quot_div_nonneg; lia.
Qed.

Lemma age_of_draw_closed_form (q : Q) :
  astype_int (clip (F64.of_Z 18) (F64.of_Z 100) (Fin q))
  = Z.max 18 (Z.min 100 (Qfloor q)).
Proof.
  unfold clip, F64.of_Z, F64.maximum, F64.minimum.
  cbn [F64.isnan F64.leb].
  destruct (Qle_bool (inject_Z 18) q) eqn:E18.
  - apply Qle_bool_iff in E18.
    pose proof (Qfloor_resp_le _ _ E18) as F18. rewrite Qfloor_Z in F18.
    cbn [F64.isnan F64.leb].
    destruct (Qle_bool q (inject_Z 100)) eqn:E100.
    + apply Qle_bool_iff in E100.
      pose proof (Qfloor_resp_le _ _ E100) as F100. rewrite Qfloor_Z in F100.
      unfold astype_int. rewrite truncate_floor
        by (apply Qle_trans with (inject_Z 18); [easy | assumption]).
      replace ((INT64_MIN <=? Qfloor q) && (Qfloor q <? 2 ^ 63)) with true.
      * lia.
      * symmetry. apply andb_true_iff. unfold INT64_MIN.
        split; [apply Z.leb_le | apply Z.ltb_lt]; lia.
    + assert (inject_Z 100 <= q)%Q as H100.
      { destruct (Qlt_le_dec q (inject_Z 100)) as [H|H]; [| exact H].
        apply Qlt_le_weak, Qle_bool_iff in H. congruence. }
      pose proof (Qfloor_resp_le _ _ H100) as F100. rewrite Qfloor_Z in F100.
      change (astype_int (Fin (inject_Z 100))) with 100. lia.
  - assert (q < inject_Z 18)%Q as H18.
    { destruct (Qlt_le_dec q (inject_Z 18)) as [H|H]; [exact H |].
      apply Qle_bool_iff in H. congruence. }
    assert (Qfloor q < 18) as F18.
    { pose proof (Qfloor_le q) as Hf.
      assert (inject_Z (Qfloor q) < inject_Z 18)%Q as Hlt
          by (eapply Qle_lt_trans; eassumption).
      now rewrite <- Zlt_Qlt in Hlt. }
    cbn [F64.isnan F64.leb].
    change (Qle_bool (inject_Z 18) (inject_Z 100)) with true.
    cbv iota.
    change (astype_int (Fin (inject_Z 18))) with 18. lia.
Qed.

(** X4.  In every returned frame the age of row [i] is the floor of the
    [i]-th normal draw, raised to 18 when it is below and lowered to 100
    when it is above. *)
Theorem age_is_clamped_floor_of_draw n seed rr sr mr st df st' :
  generate_synthetic_ehr BG n seed rr sr mr st = (Ok df, st') ->
  exists d g6,
    sampled n rr sr mr (seed_state BG seed) d g6
    /\ forall i, (i < index_len df)%nat ->
         exists q, x_of d !! i = Some (Fin q)
                   /\ cell_at df "age" i
                      = Some (CInt (Z.max 18 (Z.min 100 (Qfloor q)))).
Proof.
  intros (_ & d & g6 & Hs & -> & _)%generate_inv.
  exists d, g6. split; [assumption |]. intros i Hi.
  pose proof (sampled_lengths _ _ _ _ _ _ _ _ Hs) as (_ & Hx & _).
  destruct Hs as (g1 & _ & _ & _ & _ & Ex & _).
  apply normal_impl_inv in Ex as [_ Ex].
  pose proof (fill_Forall BG (fun x => exists q, x = Fin q)
                (random_normal (F64.of_Z 65) (F64.of_Z 15)) (Z.to_nat n)
                (seed_state BG seed)
                (fun g0 => random_normal_fin BG (inject_Z 65) (inject_Z 15) g0))
    as Hfin.
  rewrite Ex in Hfin. cbn [fst] in Hfin.
  cbn [index_len frame_of] in Hi.
  destruct (lookup_lt_is_Some_2 (x_of d) i ltac:(lia)) as [x Hxi].
  destruct (proj1 (Forall_lookup _ _) Hfin i x Hxi) as [q ->].
  exists q. split; [assumption |].
  unfold cell_at, column, frame_of, ehr_dict. cbn.
  now rewrite !list_lookup_fmap, Hxi, <- age_of_draw_closed_form.
Qed.

End AgeFacts.

Section RateFacts.

Variable BG : BitGenerator.
Implicit Types g h : state BG.
Implicit Types st : store (state BG).

(** ** The flags at the two ends of the rate interval *)

Lemma take_idx_const {A} (a : list A) (k : nat) (x : A) idx xs :
  a !! k = Some x -> Forall (eq k) idx -> take_idx a idx = Ok xs ->
  Forall (eq x) xs.
Proof.
  intros Hk Hall. revert xs.
  induction Hall as [|i idx <- _ IH]; intros xs; simpl.
  - intros [= <-]. constructor.
  - rewrite Hk. destruct (take_idx a idx) as [ys|]; [| discriminate].
    intros [= <-]. constructor; [reflexivity | now apply IH].
Qed.

(** The index [searchsorted] finds in a cumulative distribution of two
    entries. *)
Lemma searchsorted_right_two (c0 c1 u : Q) :
  searchsorted_right [Fin c0; Fin c1] (Fin u)
  = if Qle_bool c1 u then 2%nat
    else if Qle_bool c0 u then 1%nat else 0%nat.
Proof.
  unfold searchsorted_right. cbn [length].
  rewrite binsearch_right_S.
  change (0 <? 2)%nat with true. change (0 + (2 - 0) / 2)%nat with 1%nat.
  cbn [nth F64.ltb]. destruct (Qle_bool c1 u); cbn [negb].
  - rewrite binsearch_right_S. reflexivity.
  - rewrite binsearch_right_S.
    change (0 <? 1)%nat with true. change (0 + (1 - 0) / 2)%nat with 0%nat.
    cbn [nth F64.ltb]. destruct (Qle_bool c0 u); reflexivity.
Qed.

Lemma choice_flag_end (n : Z) (q : Q) g xs g' :
  choice_impl [0; 1] n [F64.sub (Fin 1) (Fin q); Fin q] g = (Ok xs, g') ->
  ((q == 0)%Q -> Forall (eq 0) xs) /\ ((q == 1)%Q -> Forall (eq 1) xs).
Proof.
  unfold choice_impl. cbn [length Nat.eqb andb].
  destruct (check_p 2 _) eqn:Hc; [discriminate |].
  assert (rate_ok (Fin q) = true) as Hok.
  { destruct (rate_ok (Fin q)) eqn:E; [reflexivity |].
    destruct (check_p_rate_bad (Fin q) E) as [msg Hbad]. congruence. }
  apply rate_ok_fin in Hok as (q' & [= <-] & H0 & H1).
  cbn [cumsum cumsum_from F64.sub F64.add F64.neg last fmap list_fmap F64.div].
  assert (Qeq_bool (1 + - q + q) 0 = false) as ->.
  { destruct (Qeq_bool (1 + - q + q) 0) eqn:E; [| reflexivity].
    apply Qeq_bool_iff in E. lra. }
  destruct (random_impl n g) as [[us|e] g1] eqn:Hr; [| discriminate].
  apply (random_impl_inv BG) in Hr as [_ Hf].
  pose proof (fill_Forall BG
                (fun x => exists u, x = Fin u /\ (0 <= u)%Q /\ (u < 1)%Q)
                next_double (Z.to_nat n) g (next_double_range BG)) as Hus.
  rewrite Hf in Hus. cbn [fst] in Hus.
  intros [= Ht _].
  set (T := (1 + - q + q)%Q) in *.
  assert (T == 1)%Q as HT by (unfold T; ring).
  split; intros Hq.
  - eapply (take_idx_const [0; 1] 0%nat 0 _ xs eq_refl); [| exact Ht].
    apply Forall_fmap. eapply Forall_impl; [exact Hus |].
    intros x (u & -> & Hu0 & Hu1). unfold compose. rewrite searchsorted_right_two.
    assert (Qle_bool (T / T) u = false) as ->.
    { destruct (Qle_bool (T / T) u) eqn:E; [| reflexivity].
      apply Qle_bool_iff in E.
      assert (T / T == 1)%Q as E1 by (field; lra). rewrite E1 in E. lra. }
    assert (Qle_bool ((1 + - q) / T) u = false) as ->; [| reflexivity].
    destruct (Qle_bool ((1 + - q) / T) u) eqn:E; [| reflexivity].
    apply Qle_bool_iff in E.
    assert ((1 + - q) / T == 1)%Q as E1 by (rewrite HT, Hq; reflexivity).
    rewrite E1 in E. lra.
  - eapply (take_idx_const [0; 1] 1%nat 1 _ xs eq_refl); [| exact Ht].
    apply Forall_fmap. eapply Forall_impl; [exact Hus |].
    intros x (u & -> & Hu0 & Hu1). unfold compose. rewrite searchsorted_right_two.
    assert (Qle_bool (T / T) u = false) as ->.
    { destruct (Qle_bool (T / T) u) eqn:E; [| reflexivity].
      apply Qle_bool_iff in E.
      assert (T / T == 1)%Q as E1 by (field; lra). rewrite E1 in E. lra. }
    assert (Qle_bool ((1 + - q) / T) u = true) as ->; [| reflexivity].
    apply Qle_bool_iff.
    assert ((1 + - q) / T == 0)%Q as E1 by (rewrite HT, Hq; reflexivity).
    rewrite E1. exact Hu0.
Qed.

(** X5.  A rate of zero gives a column of zeros and a rate of one a column
    of ones, for each of the three flags and whatever the random stream. *)
Theorem rate_zero_and_rate_one n seed rr sr mr st df st' f q :
  generate_synthetic_ehr BG n seed rr sr mr st = (Ok df, st') ->
  rate_of f (rr, sr, mr) = Fin q ->
  ((q == 0)%Q ->
     column df (flag_column f) = Some (replicate (index_len df) (CInt 0)))
  /\ ((q == 1)%Q ->
        column df (flag_column f) = Some (replicate (index_len df) (CInt 1))).
Proof.
  intros (_ & d & g6 & Hs & -> & _)%generate_inv Hrate.
  pose proof (sampled_lengths _ _ _ _ _ _ _ _ Hs)
    as (_ & _ & _ & _ & Lre & Lse & Lmo).
  destruct Hs as (g1 & g2 & g3 & g4 & g5 & _ & _ & _ & Hre & Hse & Hmo).
  assert (forall (b : Z) (xs : list Z),
            length xs = Z.to_nat n -> Forall (eq b) xs ->
            CInt <$> xs = replicate (Z.to_nat n) (CInt b)) as Hrep.
  { intros b xs <- Hall. induction Hall as [|x xs <- _ IH]; [reflexivity |].
    cbn. now rewrite IH. }
  cbn [index_len frame_of].
  destruct f; cbn in Hrate; subst;
    [apply choice_flag_end in Hre as [Z0 Z1]
    | apply choice_flag_end in Hse as [Z0 Z1]
    | apply choice_flag_end in Hmo as [Z0 Z1]];
    split; intros Hq; unfold column, frame_of, ehr_dict; cbn;
    f_equal; apply Hrep; auto.
Qed.

End RateFacts.

(** ** The width and the order of patient ids *)

Lemma usize_revapp (d d' : Decimal.uint) :
  DecimalPos.Unsigned.usize (Decimal.revapp d d')
  = (DecimalPos.Unsigned.usize d + DecimalPos.Unsigned.usize d')%N.
Proof.
  revert d'. induction d; intros d'; simpl; rewrite ?IHd; simpl; lia.
Qed.

Lemma of_lu_bound (d : Decimal.uint) :
  (DecimalPos.Unsigned.of_lu d < 10 ^ DecimalPos.Unsigned.usize d)%N.
Proof.
  induction d;
    [simpl; lia
    | rewrite DecimalPos.Unsigned.of_lu_eqn;
      cbn [DecimalPos.Unsigned.hd DecimalPos.Unsigned.tl
           DecimalPos.Unsigned.usize];
      rewrite N.pow_succ_r'; lia ..].
Qed.

Lemma string_of_uint_length (d : Decimal.uint) :
  String.length (NilEmpty.string_of_uint d)
  = N.to_nat (DecimalPos.Unsigned.usize d).
Proof. induction d; simpl; rewrite ?IHd; lia. Qed.

(** A non-negative integer is below ten to the number of its digits. *)
Lemma str_bound (i : Z) :
  0 <= i -> i < 10 ^ Z.of_nat (String.length (str i)).
Proof.
  intros (d & _ & Hs & <-)%str_nonneg.
  rewrite Hs, string_of_uint_length. unfold Z.of_uint.
  rewrite DecimalPos.Unsigned.of_uint_alt.
  pose proof (of_lu_bound (Decimal.rev d)) as Hb.
  unfold Decimal.rev in Hb at 2. rewrite usize_revapp in Hb. cbn in Hb.
  rewrite N.add_0_r in Hb.
  rewrite N_nat_Z.
  apply N2Z.inj_lt in Hb. rewrite N2Z.inj_pow in Hb. exact Hb.
Qed.

(** X6.  The id of index [i] has the fixed width of seven characters
    exactly when [i] is below one million. *)
Theorem patient_id_width (i : Z) :
  0 <= i ->
  (String.length (patient_id_of i) = 7%nat <-> i < 10 ^ 6).
Proof.
  intros Hi. rewrite (patient_id_length i Hi). split.
  - intros Hl. pose proof (str_bound i Hi) as Hb.
    assert (String.length (str i) <= 6)%nat as Hs by lia.
    eapply Z.lt_le_trans; [exact Hb |].
    apply Z.pow_le_mono_r; lia.
  - intros Hlt. pose proof (str_short i ltac:(lia)). lia.
Qed.

Lemma usize_rev (d : Decimal.uint) :
  DecimalPos.Unsigned.usize (Decimal.rev d) = DecimalPos.Unsigned.usize d.
Proof. unfold Decimal.rev. rewrite usize_revapp. cbn. lia. Qed.

Lemma of_uint_bound (d : Decimal.uint) :
  (Pos.of_uint d < 10 ^ DecimalPos.Unsigned.usize d)%N.
Proof.
  rewrite DecimalPos.Unsigned.of_uint_alt, <- usize_rev. apply of_lu_bound.
Qed.

(** The value of a digit followed by [d]: the digit times ten to the
    number of digits of [d], plus the value of [d]. *)
Lemma of_uint_cons (c : Decimal.uint -> Decimal.uint) (d : Decimal.uint) :
  (forall d0 acc, Decimal.revapp (c d0) acc = Decimal.revapp d0 (c acc)) ->
  Pos.of_uint (c d)
  = (DecimalPos.Unsigned.of_lu (c Decimal.Nil)
     * 10 ^ DecimalPos.Unsigned.usize d + Pos.of_uint d)%N.
Proof.
  intros Hc. rewrite !DecimalPos.Unsigned.of_uint_alt.
  unfold Decimal.rev at 1. rewrite Hc, DecimalPos.Unsigned.of_lu_revapp. lia.
Qed.

Ltac compute_ascii_compare :=
  match goal with
  | |- context [Ascii.compare ?a ?b] =>
      let c := eval vm_compute in (Ascii.compare a b) in
      change (Ascii.compare a b) with c
  end.

(** For two numerals of one length, the order of the values is the order
    of the strings. *)
Lemma string_of_uint_lt (d d' : Decimal.uint) :
  DecimalPos.Unsigned.usize d = DecimalPos.Unsigned.usize d' ->
  (Pos.of_uint d < Pos.of_uint d')%N ->
  String.compare (NilEmpty.string_of_uint d) (NilEmpty.string_of_uint d')
  = Lt.
Proof.
  revert d'. induction d as [|d IH|d IH|d IH|d IH|d IH|d IH|d IH|d IH|d IH|d IH];
    intros [|d'|d'|d'|d'|d'|d'|d'|d'|d'|d'] Hsz Hlt;
    cbn [DecimalPos.Unsigned.usize] in Hsz;
    try (exfalso; cbn in Hlt; lia);
    try lia;
    apply N.succ_inj in Hsz;
    pose proof (of_uint_bound d) as Hb;
    pose proof (of_uint_bound d') as Hb';
    match type of Hlt with
    | (Pos.of_uint (?c1 d) < Pos.of_uint (?c2 d'))%N =>
        rewrite (of_uint_cons c1 d (fun _ _ => eq_refl)),
                (of_uint_cons c2 d' (fun _ _ => eq_refl)) in Hlt
    end;
    rewrite <- Hsz in *;
    cbn [DecimalPos.Unsigned.of_lu] in Hlt;
    cbn [NilEmpty.string_of_uint String.compare];
    compute_ascii_compare; cbv iota;
    first [reflexivity | apply IH; [assumption | lia] | exfalso; lia].
Qed.

Lemma string_of_uint_zeros (k : nat) (d : Decimal.uint) :
  NilEmpty.string_of_uint (Nat.iter k Decimal.D0 d)
  = zeros k +:+ NilEmpty.string_of_uint d.
Proof.
  induction k as [|k IH]; [reflexivity |].
  change (zeros (S k)) with (String "0"%char (zeros k)).
  change (Nat.iter (S k) Decimal.D0 d)
    with (Decimal.D0 (Nat.iter k Decimal.D0 d)).
  rewrite append_cons, <- IH. reflexivity.
Qed.

Lemma usize_zeros (k : nat) (d : Decimal.uint) :
  DecimalPos.Unsigned.usize (Nat.iter k Decimal.D0 d)
  = (N.of_nat k + DecimalPos.Unsigned.usize d)%N.
Proof.
  induction k as [|k IH]; [reflexivity |].
  change (Nat.iter (S k) Decimal.D0 d)
    with (Decimal.D0 (Nat.iter k Decimal.D0 d)).
  cbn [DecimalPos.Unsigned.usize]. rewrite IH. lia.
Qed.

Lemma pos_of_uint_zeros (k : nat) (d : Decimal.uint) :
  Pos.of_uint (Nat.iter k Decimal.D0 d) = Pos.of_uint d.
Proof. induction k as [|k IH]; [reflexivity | exact IH]. Qed.

(** Below one million the padded digits of [i] are a numeral of six digits
    whose value is [i]. *)
Lemma zfill_numeral (i : Z) :
  0 <= i < 10 ^ 6 ->
  exists D,
    zfill 6 (str i) = NilEmpty.string_of_uint D
    /\ DecimalPos.Unsigned.usize D = 6%N
    /\ Z.of_N (Pos.of_uint D) = i.
Proof.
  intros Hi. pose proof (str_short i Hi) as Hshort.
  destruct (str_nonneg i ltac:(lia)) as (d & Hd & Hs & Hv).
  rewrite Hs in *. rewrite zfill_digits by assumption.
  rewrite string_of_uint_length in *.
  exists (Nat.iter (6 - N.to_nat (DecimalPos.Unsigned.usize d)) Decimal.D0 d).
  split; [now rewrite string_of_uint_zeros |].
  split; [rewrite usize_zeros; lia |].
  now rewrite pos_of_uint_zeros.
Qed.

(** X7.  Below one million the ids are in strictly increasing string order
    along the rows, so sorting by id keeps the generation order; the first
    id of eight characters breaks it. *)
Theorem patient_ids_sorted_below_one_million :
  (forall i j, 0 <= i -> i < j -> j < 10 ^ 6 ->
     String.ltb (patient_id_of i) (patient_id_of j) = true)
  /\ String.ltb (patient_id_of (10 ^ 6)) (patient_id_of (10 ^ 6 - 1)) = true.
Proof.
  split; [| vm_compute; reflexivity].
  intros i j Hi Hij Hj.
  destruct (zfill_numeral i ltac:(lia)) as (Di & Ei & Si & Vi).
  destruct (zfill_numeral j ltac:(lia)) as (Dj & Ej & Sj & Vj).
  unfold patient_id_of, String.ltb. rewrite Ei, Ej, !append_cons, !append_nil.
  cbn [String.compare]. compute_ascii_compare. cbv iota.
  rewrite (string_of_uint_lt Di Dj); [reflexivity | congruence | lia].
Qed.

Section TestFacts.

Variable BG : BitGenerator.
Implicit Types g h : state BG.
Implicit Types st : store (state BG).

(** ** The tests *)

Lemma tbind_call {A C} (m : M (state BG) A) (k : A -> T (state BG) C)
    st a st' :
  m st = (Ok a, st') -> tbind (call m) k st = k a st'.
Proof. intros E. unfold tbind, call. now rewrite E. Qed.

Lemma tbind_treturn {A C} (a : A) (k : A -> T (state BG) C) st :
  tbind (treturn a) k st = k a st.
Proof. reflexivity. Qed.

Lemma default_rates_ok :
  rate_ok default_readmission_rate = true
  /\ rate_ok default_sepsis_rate = true
  /\ rate_ok default_mortality_rate = true.
Proof. repeat split. Qed.

Lemma generate_with_defaults_ok n seed st :
  0 <= seed -> 0 <= n ->
  exists d g6,
    sampled n default_readmission_rate default_sepsis_rate
      default_mortality_rate (seed_state BG seed) d g6
    /\ forall C (k : DataFrame -> T (state BG) C),
         tbind (generate_with_defaults BG n seed) k st
         = k (frame_of n d) (st ++ [g6]).
Proof.
  intros Hs Hn. destruct default_rates_ok as (Hrr & Hsr & Hmr).
  destruct (generate_total BG n seed _ _ _ st Hs Hn Hrr Hsr Hmr)
    as (d & g6 & Hd & E).
  exists d, g6. split; [assumption |]. intros C k.
  unfold generate_with_defaults. now apply tbind_call.
Qed.

Lemma ints_of_CInt (zs : list Z) : ints_of (CInt <$> zs) = Some zs.
Proof. induction zs as [|z zs IH]; cbn; [reflexivity |]. now rewrite IH. Qed.

Lemma foldr_min_bounds (lo hi z : Z) (zs : list Z) :
  lo <= z <= hi -> Forall (fun a => lo <= a <= hi) zs ->
  lo <= foldr Z.min z zs <= hi.
Proof. intros Hz. induction 1; cbn; lia. Qed.

Lemma foldr_max_bounds (lo hi z : Z) (zs : list Z) :
  lo <= z <= hi -> Forall (fun a => lo <= a <= hi) zs ->
  lo <= foldr Z.max z zs <= hi.
Proof. intros Hz. induction 1; cbn; lia. Qed.

Lemma leb_of_Z (a b : Z) : F64.leb (F64.of_Z a) (F64.of_Z b) = (a <=? b).
Proof.
  unfold F64.of_Z. cbn [F64.leb].
  destruct (a <=? b) eqn:E.
  - apply Qle_bool_iff. rewrite <- Zle_Qle. now apply Z.leb_le.
  - destruct (Qle_bool (inject_Z a) (inject_Z b)) eqn:E'; [| reflexivity].
    apply Qle_bool_iff in E'. rewrite <- Zle_Qle in E'.
    apply Z.leb_le in E'. congruence.
Qed.

Lemma ages_in_range n rr sr mr g0 d g6 :
  sampled n rr sr mr g0 d g6 ->
  Forall (fun a => 18 <= a <= 100)
    (astype_int <$> (clip (F64.of_Z 18) (F64.of_Z 100) <$> x_of d)).
Proof.
  intros (g1 & _ & _ & _ & _ & Ex & _).
  apply normal_impl_inv in Ex as [_ Ex].
  pose proof (fill_Forall BG (fun x => exists q, x = Fin q)
                (random_normal (F64.of_Z 65) (F64.of_Z 15)) (Z.to_nat n) g0
                (fun g => random_normal_fin BG (inject_Z 65) (inject_Z 15) g))
    as Hfin.
  rewrite Ex in Hfin. cbn [fst] in Hfin.
  rewrite <- list_fmap_compose. apply Forall_fmap.
  eapply Forall_impl; [exact Hfin |].
  intros x [q ->]. apply age_of_draw_range.
Qed.

Lemma remove_dups_NoDup {A} `{EqDecision A} (l : list A) :
  NoDup l -> remove_dups l = l.
Proof.
  induction 1 as [|x l Hx _ IH]; [reflexivity |].
  cbn. destruct (decide_rel elem_of x l); [contradiction |]. now rewrite IH.
Qed.

Lemma ids_column_NoDup n : NoDup (CStr <$> (patient_id_of <$> range n)).
Proof.
  apply NoDup_fmap_2_strong; [| apply patient_ids_NoDup].
  intros s t _ _ [= ->]. reflexivity.
Qed.

(** X8.  Every frame the generator returns has the six required columns,
    so [test_synthetic_data_has_correct_columns] passes whatever the
    random stream and the store. *)
Theorem test_columns_passes :
  (forall n seed rr sr mr st df st' st2,
     generate_synthetic_ehr BG n seed rr sr mr st = (Ok df, st') ->
     assert_required_columns BG df st2 = (Return tt, st2))
  /\ forall st,
       (test_synthetic_data_has_correct_columns BG st).1 = Return tt.
Proof.
  split.
  - intros n seed rr sr mr st df st' st2
      (_ & d & g6 & _ & -> & _)%generate_inv. reflexivity.
  - intros st. unfold test_synthetic_data_has_correct_columns.
    destruct (generate_with_defaults_ok 100 default_random_state st)
      as (d & g6 & _ & ->); [unfold default_random_state; lia | lia |].
    reflexivity.
Qed.

(** X9.  [len(df)] of every returned frame is the requested count, so
    [test_synthetic_data_has_correct_size] passes for its three sizes
    whatever the random stream and the store. *)
Theorem test_size_passes :
  (forall n seed rr sr mr st df st' st2,
     generate_synthetic_ehr BG n seed rr sr mr st = (Ok df, st') ->
     assert_row_count BG n df st2 = (Return tt, st2))
  /\ forall st,
       (test_synthetic_data_has_correct_size BG st).1 = Return tt.
Proof.
  assert (forall n d st2, 0 <= n ->
            assert_row_count BG n (frame_of n d) st2 = (Return tt, st2))
    as Hrow.
  { intros n d st2 Hn. unfold assert_row_count. cbn [index_len frame_of].
    rewrite Z2Nat.id by assumption. now rewrite Z.eqb_refl. }
  split.
  - intros n seed rr sr mr st df st' st2
      (_ & d & g6 & Hs & -> & _)%generate_inv.
    apply Hrow. now apply sampled_lengths in Hs as (Hn & _).
  - intros st. unfold test_synthetic_data_has_correct_size.
    cbn [for_each].
    destruct (generate_with_defaults_ok 100 default_random_state st)
      as (d1 & h1 & _ & E1); [unfold default_random_state; lia | lia |].
    unfold tbind at 1. rewrite E1, Hrow by lia.
    destruct (generate_with_defaults_ok 500 default_random_state (st ++ [h1]))
      as (d2 & h2 & _ & E2); [unfold default_random_state; lia | lia |].
    unfold tbind at 1. rewrite E2, Hrow by lia.
    destruct (generate_with_defaults_ok 1000 default_random_state
                ((st ++ [h1]) ++ [h2]))
      as (d3 & h3 & _ & E3); [unfold default_random_state; lia | lia |].
    unfold tbind at 1. rewrite E3, Hrow by lia.
    reflexivity.
Qed.

(** X10.  Two calls in a row with the same arguments return equal frames,
    so [assert_frame_equal] accepts them and
    [test_synthetic_data_reproducibility] passes whatever the random
    stream and the store. *)
Theorem test_reproducibility_passes :
  (forall n seed rr sr mr st df1 st1 df2 st2,
     generate_synthetic_ehr BG n seed rr sr mr st = (Ok df1, st1) ->
     generate_synthetic_ehr BG n seed rr sr mr st1 = (Ok df2, st2) ->
     assert_frame_equal (bitgen := state BG) df1 df2 st2 = (Return tt, st2))
  /\ forall st,
       (test_synthetic_data_reproducibility BG st).1 = Return tt.
Proof.
  assert (forall df st2,
            assert_frame_equal (bitgen := state BG) df df st2
            = (Return tt, st2)) as Hsame.
  { intros df st2. unfold assert_frame_equal.
    now rewrite bool_decide_eq_true_2. }
  split.
  - intros n seed rr sr mr st df1 st1 df2 st2
      (_ & d1 & g1 & Hs1 & -> & _)%generate_inv
      (_ & d2 & g2 & Hs2 & -> & _)%generate_inv.
    destruct (sampled_functional BG _ _ _ _ _ _ _ _ _ Hs1 Hs2) as [-> _].
    apply Hsame.
  - intros st. unfold test_synthetic_data_reproducibility.
    destruct (generate_with_defaults_ok 100 42 st)
      as (d1 & h1 & Hs1 & ->); [lia | lia |].
    destruct (generate_with_defaults_ok 100 42 (st ++ [h1]))
      as (d2 & h2 & Hs2 & ->); [lia | lia |].
    destruct (sampled_functional BG _ _ _ _ _ _ _ _ _ Hs1 Hs2) as [-> _].
    now rewrite Hsame.
Qed.

Lemma Series_min_ints (zs : list Z) :
  Series_min (CInt <$> zs)
  = Some match zs with
         | [] => NaN
         | z :: zs' => F64.of_Z (foldr Z.min z zs')
         end.
Proof. unfold Series_min. now rewrite ints_of_CInt. Qed.

Lemma Series_max_ints (zs : list Z) :
  Series_max (CInt <$> zs)
  = Some match zs with
         | [] => NaN
         | z :: zs' => F64.of_Z (foldr Z.max z zs')
         end.
Proof. unfold Series_max. now rewrite ints_of_CInt. Qed.

Lemma assert_age_range_ints (df : DataFrame) (zs : list Z) st2 :
  column df "age" = Some (CInt <$> zs) ->
  Forall (fun a => 18 <= a <= 100) zs ->
  assert_age_range BG df st2
  = match zs with
    | [] => (Throw (AssertionError "Age should be >= 18 (adult patients)"),
             st2)
    | _ :: _ => (Return tt, st2)
    end.
Proof.
  intros Hcol Hall. unfold assert_age_range, getitem. rewrite Hcol.
  rewrite tbind_treturn, Series_min_ints.
  destruct zs as [|z zs]; [reflexivity |].
  apply Forall_cons in Hall as [Hz Hall].
  pose proof (foldr_min_bounds 18 100 _ _ Hz Hall) as Hmin.
  pose proof (foldr_max_bounds 18 100 _ _ Hz Hall) as Hmax.
  cbn [compare_with]. rewrite tbind_treturn, leb_of_Z.
  rewrite (proj2 (Z.leb_le _ _) (proj1 Hmin)).
  cbn [assert_that]. rewrite !tbind_treturn, Series_max_ints.
  cbn [compare_with]. rewrite tbind_treturn, leb_of_Z.
  rewrite (proj2 (Z.leb_le _ _) (proj2 Hmax)). reflexivity.
Qed.

Lemma assert_age_range_frame n d st2 :
  Forall (fun a => 18 <= a <= 100)
    (astype_int <$> (clip (F64.of_Z 18) (F64.of_Z 100) <$> x_of d)) ->
  assert_age_range BG (frame_of n d) st2
  = match x_of d with
    | [] => (Throw (AssertionError "Age should be >= 18 (adult patients)"),
             st2)
    | _ :: _ => (Return tt, st2)
    end.
Proof.
  intros Hall.
  rewrite (assert_age_range_ints (frame_of n d) _ st2 eq_refl Hall).
  now destruct (x_of d).
Qed.

(** X11.  On every returned frame with at least one row the two age
    assertions hold, so [test_synthetic_data_age_range] passes whatever
    the random stream; on the frame of no patient the first assertion
    fails, because the minimum of an empty column is NaN. *)
Theorem test_age_range_passes :
  (forall n seed rr sr mr st df st' st2,
     generate_synthetic_ehr BG n seed rr sr mr st = (Ok df, st') ->
     assert_age_range BG df st2
     = if n =? 0
       then (Throw (AssertionError "Age should be >= 18 (adult patients)"),
             st2)
       else (Return tt, st2))
  /\ forall st, (test_synthetic_data_age_range BG st).1 = Return tt.
Proof.
  split.
  - intros n seed rr sr mr st df st' st2
      (_ & d & g6 & Hs & -> & _)%generate_inv.
    rewrite (assert_age_range_frame n d st2 (ages_in_range _ _ _ _ _ _ _ Hs)).
    apply sampled_lengths in Hs as (Hn & Hx & _).
    destruct (Z.eqb_spec n 0) as [->|Hne].
    + destruct (x_of d); [reflexivity | discriminate].
    + destruct (x_of d); [cbn in Hx; lia | reflexivity].
  - intros st. unfold test_synthetic_data_age_range.
    destruct (generate_with_defaults_ok 1000 default_random_state st)
      as (d & g6 & Hs & ->); [unfold default_random_state; lia | lia |].
    rewrite (assert_age_range_frame _ d _ (ages_in_range _ _ _ _ _ _ _ Hs)).
    apply sampled_lengths in Hs as (_ & Hx & _).
    destruct (x_of d); [discriminate | reflexivity].
Qed.

Lemma assert_ids_unique_frame n d st2 :
  assert_ids_unique BG (frame_of n d) st2 = (Return tt, st2).
Proof.
  unfold assert_ids_unique.
  change (getitem (frame_of n d) "patient_id")
    with (treturn (bitgen := state BG)
            (CStr <$> (patient_id_of <$> range n))).
  rewrite tbind_treturn. unfold nunique.
  rewrite (remove_dups_NoDup _ (ids_column_NoDup n)).
  rewrite !length_fmap, range_length. cbn [index_len frame_of].
  now rewrite Nat.eqb_refl.
Qed.

(** X12.  In every returned frame the number of distinct patient ids is
    the number of rows, so [test_synthetic_data_patient_ids_unique] passes
    whatever the random stream and the store. *)
Theorem test_patient_ids_unique_passes :
  (forall n seed rr sr mr st df st' st2,
     generate_synthetic_ehr BG n seed rr sr mr st = (Ok df, st') ->
     assert_ids_unique BG df st2 = (Return tt, st2))
  /\ forall st,
       (test_synthetic_data_patient_ids_unique BG st).1 = Return tt.
Proof.
  split.
  - intros n seed rr sr mr st df st' st2
      (_ & d & g6 & _ & -> & _)%generate_inv.
    apply assert_ids_unique_frame.
  - intros st. unfold test_synthetic_data_patient_ids_unique.
    destruct (generate_with_defaults_ok 1000 default_random_state st)
      as (d & g6 & _ & ->); [unfold default_random_state; lia | lia |].
    now rewrite assert_ids_unique_frame.
Qed.

End TestFacts.

Section PrefixFacts.

Variable BG : BitGenerator.
Implicit Types g h : state BG.
Implicit Types st : store (state BG).

(** ** Runs of different sizes *)

Lemma fill_take {A} (draw : state BG -> A * state BG) (n m : nat) g :
  (n <= m)%nat -> (fill draw n g).1 = take n (fill draw m g).1.
Proof.
  revert m g. induction n as [|n IH]; intros m g Hnm; [reflexivity |].
  destruct m as [|m]; [lia |]. cbn [fill].
  destruct (draw g) as [x g1]. specialize (IH m g1 ltac:(lia)).
  destruct (fill draw n g1) as [xs g2], (fill draw m g1) as [ys g3].
  cbn in *. now rewrite IH.
Qed.

Lemma range_take (n m : Z) : n <= m -> range n = take (Z.to_nat n) (range m).
Proof.
  intros Hnm. unfold range. rewrite <- fmap_take, take_seq. f_equal. f_equal.
  lia.
Qed.

(** X13.  With one seed, the ids and the ages of a run of [n] patients are
    the first [n] ids and ages of any longer run, whatever the rates of the
    two runs: the ages are the first draws of the generator. *)
Theorem ids_and_ages_of_a_shorter_run
    n m seed rr sr mr rr' sr' mr' st st2 df st' df' st2' :
  n <= m ->
  generate_synthetic_ehr BG n seed rr sr mr st = (Ok df, st') ->
  generate_synthetic_ehr BG m seed rr' sr' mr' st2 = (Ok df', st2') ->
  (exists ids, column df' "patient_id" = Some ids
               /\ column df "patient_id" = Some (take (index_len df) ids))
  /\ (exists ages, column df' "age" = Some ages
                   /\ column df "age" = Some (take (index_len df) ages)).
Proof.
  intros Hnm (_ & d & g6 & Hs & -> & _)%generate_inv
             (_ & d' & g6' & Hs' & -> & _)%generate_inv.
  destruct Hs as (g1 & _ & _ & _ & _ & Ex & _).
  destruct Hs' as (g1' & _ & _ & _ & _ & Ex' & _).
  apply normal_impl_inv in Ex as [Hn Ex], Ex' as [_ Ex'].
  cbn [index_len frame_of]. split.
  - eexists. split; [reflexivity |]. unfold column, frame_of, ehr_dict. cbn.
    now rewrite <- !fmap_take, <- range_take.
  - eexists. split; [reflexivity |]. unfold column, frame_of, ehr_dict. cbn.
    rewrite <- !fmap_take. do 4 f_equal.
    pose proof (fill_take
                  (random_normal (F64.of_Z 65) (F64.of_Z 15))
                  (Z.to_nat n) (Z.to_nat m) (seed_state BG seed)
                  ltac:(lia)) as Hp.
    now rewrite Ex, Ex' in Hp.
Qed.

End PrefixFacts.

(** ** The further properties at concrete inputs *)

Example demo_run0 :
  run_lcg 3 42 (Fin 0) default_sepsis_rate default_mortality_rate
  = (Ok demo_frame0, demo_store).
Proof. vm_compute. reflexivity. Qed.

Lemma X2_witness :
  run_lcg 1 (-1) default_readmission_rate default_sepsis_rate
    default_mortality_rate
  = (Raise (ValueError "expected non-negative integer"), [])
  /\ exists msg, ValueError "expected non-negative integer" = ValueError msg.
Proof.
  split; [vm_compute; reflexivity |].
  apply (proj1 (generate_raises_only_value_error Lcg.bitgen 1 (-1)
                  default_readmission_rate default_sepsis_rate
                  default_mortality_rate [])
           (ValueError "expected non-negative integer") []).
  vm_compute. reflexivity.
Defined.

Lemma X4_witness :
  run_lcg 3 42 default_readmission_rate default_sepsis_rate
    default_mortality_rate = (Ok demo_frame, demo_store)
  /\ exists d g6,
       sampled (BG := Lcg.bitgen) 3 default_readmission_rate
         default_sepsis_rate default_mortality_rate (Lcg.seed 42) d g6
       /\ forall i, (i < index_len demo_frame)%nat ->
            exists q, x_of d !! i = Some (Fin q)
                      /\ cell_at demo_frame "age" i
                         = Some (CInt (Z.max 18 (Z.min 100 (Qfloor q)))).
Proof.
  split; [exact demo_run |].
  exact (age_is_clamped_floor_of_draw Lcg.bitgen 3 42
           default_readmission_rate default_sepsis_rate
           default_mortality_rate [] demo_frame demo_store demo_run).
Defined.

Lemma X5_witness :
  (run_lcg 3 42 (Fin 0) default_sepsis_rate default_mortality_rate
   = (Ok demo_frame0, demo_store)
   /\ rate_of Readmission
        (Fin 0, default_sepsis_rate, default_mortality_rate) = Fin 0
   /\ (0 == 0)%Q)
  /\ column demo_frame0 "readmission" = Some [CInt 0; CInt 0; CInt 0].
Proof.
  split; [split; [exact demo_run0 | split; reflexivity] |].
  exact (proj1 (rate_zero_and_rate_one Lcg.bitgen 3 42 (Fin 0)
                  default_sepsis_rate default_mortality_rate []
                  demo_frame0 demo_store Readmission 0%Q demo_run0 eq_refl)
           (Qeq_refl 0)).
Defined.

Lemma X6_witness :
  0 <= 42
  /\ (String.length (patient_id_of 42) = 7%nat <-> 42 < 10 ^ 6).
Proof.
  split; [lia |]. apply (patient_id_width 42). lia.
Defined.

Example demo_run2 :
  run_lcg 2 42 default_readmission_rate default_sepsis_rate
    default_mortality_rate
  = (Ok demo_frame2, demo_store2).
Proof. vm_compute. reflexivity. Qed.

Lemma X13_witness :
  (2 <= 3
   /\ run_lcg 2 42 default_readmission_rate default_sepsis_rate
        default_mortality_rate = (Ok demo_frame2, demo_store2)
   /\ run_lcg 3 42 default_readmission_rate default_sepsis_rate
        default_mortality_rate = (Ok demo_frame, demo_store))
  /\ exists ages, column demo_frame "age" = Some ages
                  /\ column demo_frame2 "age"
                     = Some (take (index_len demo_frame2) ages).
Proof.
  split; [split; [lia | split; [exact demo_run2 | exact demo_run]] |].
  exact (proj2 (ids_and_ages_of_a_shorter_run Lcg.bitgen 2 3 42
                  default_readmission_rate default_sepsis_rate
                  default_mortality_rate
                  default_readmission_rate default_sepsis_rate
                  default_mortality_rate
                  [] [] demo_frame2 demo_store2 demo_frame demo_store
                  ltac:(lia) demo_run2 demo_run)).
Defined.

(** The other columns of a shorter run are not the first cells of a longer
    one: their draws start after all the ages. *)
Example gender_of_a_shorter_run :
  column demo_frame2 "gender" = Some [CStr "M"; CStr "F"]
  /\ column demo_frame "gender" = Some [CStr "M"; CStr "M"; CStr "F"].
Proof. split; reflexivity. Qed.
